(** * Weavr: retrieval, validation, reasoning pipeline and instruction input

    A shallow embedding of the executable fragments of the repository:

    - [docs/Weavr AI- RAG Optimization & Real-Time Knowledge Updates.md]:
      [get_modified_files], [get_context], [hybrid_retrieval] (Python);
    - [docs/Weavr AI v0.1 Development Roadmap.md]:
      [EnhancedProcessor.process_query], [ParameterValidator.validate_params],
      [validate_directory], [write_markdown] (Python);
    - [src/utils/instructionUpdater.ts]: [updateInstructions] (TypeScript).

    Text is a list of characters; a character is a code point below 256
    (the Latin-1 block of Unicode), so every statement below is about text
    in that range.  Python exceptions are values of [exn] carried by
    [result]; dictionaries are [gmap]s whose missing keys raise [KeyError];
    the operating system and the external model call are interfaces. *)

From Stdlib Require Import List Ascii String ZArith QArith Lia Bool Permutation.
From stdpp Require Import base list strings gmap.
Import ListNotations.

Set Default Proof Using "Type".

(* ================================================================== *)
(** * Part I: the embedding                                            *)
(* ================================================================== *)

(** ** Text *)

Module Text.

Definition str := list ascii.

(** A literal of the source, as text. *)
Definition py (s : string) : list ascii := list_ascii_of_string s.

Definition code (c : ascii) : nat := nat_of_ascii c.

Definition between (lo hi n : nat) : bool := (lo <=? n) && (n <=? hi).

(** Python [str.isspace] on one character: Unicode White_Space together
    with the four information separators U+001C..U+001F. *)
Definition isspace (c : ascii) : bool :=
  let n := code c in
  between 9 13 n || between 28 32 n || (n =? 133) || (n =? 160).

(** Python [str.isalnum] on one character (alphabetic, decimal, digit or
    numeric in the Unicode database). *)
Definition isalnum (c : ascii) : bool :=
  let n := code c in
  between 48 57 n || between 65 90 n || between 97 122 n
  || (n =? 170) || between 178 179 n || (n =? 181) || between 185 186 n
  || between 188 190 n || between 192 214 n || between 216 246 n
  || between 248 255 n.

(** Python [str.lower] on one character: A-Z and the Latin-1 capitals
    (U+00C0..U+00DE without the multiplication sign) move up by 32. *)
Definition lower_char (c : ascii) : ascii :=
  let n := code c in
  if between 65 90 n || (between 192 222 n && negb (n =? 215))
  then ascii_of_nat (n + 32) else c.

Definition lower (s : str) : str := map lower_char s.

(** ECMAScript WhiteSpace and LineTerminator, as [String.prototype.trim]
    strips them. *)
Definition js_isspace (c : ascii) : bool :=
  let n := code c in
  between 9 13 n || (n =? 32) || (n =? 160).

Definition eqc (a b : ascii) : bool := Ascii.eqb a b.

(** [s.startswith(p)] *)
Fixpoint startswith (p s : str) : bool :=
  match p, s with
  | [], _ => true
  | _ :: _, [] => false
  | a :: p', b :: s' => eqc a b && startswith p' s'
  end.

(** [s.endswith(p)] *)
Definition endswith (p s : str) : bool := startswith (rev p) (rev s).

(** [needle in hay] on strings: some suffix of [hay] starts with [needle]. *)
Fixpoint contains (needle hay : str) : bool :=
  startswith needle hay ||
  match hay with
  | [] => false
  | _ :: hay' => contains needle hay'
  end.

(** [s.split()] with no separator: maximal runs of non-whitespace.  [tok]
    is the run being read, last character first. *)
Fixpoint split_from (tok : str) (s : str) : list str :=
  match s with
  | [] => match tok with [] => [] | _ => [rev tok] end
  | c :: s' =>
      if isspace c
      then match tok with
           | [] => split_from [] s'
           | _ => rev tok :: split_from [] s'
           end
      else split_from (c :: tok) s'
  end.

Definition split (s : str) : list str := split_from [] s.

(** The number of words of a text, counted without splitting it: the
    places where a character that is not whitespace starts the text or
    follows whitespace. *)
Fixpoint word_starts (after_space : bool) (s : str) : nat :=
  match s with
  | [] => 0
  | c :: s' =>
      if isspace c then word_starts true s'
      else (if after_space then 1 else 0) + word_starts false s'
  end.

Definition word_count (s : str) : nat := word_starts true s.

(** [sep.join(parts)] *)
Fixpoint join (sep : str) (parts : list str) : str :=
  match parts with
  | [] => []
  | [p] => p
  | p :: rest => p ++ sep ++ join sep rest
  end.

(** [String.prototype.trim], as trimStart followed by trimEnd. *)
Fixpoint trimStart (s : str) : str :=
  match s with
  | c :: s' => if js_isspace c then trimStart s' else s
  | [] => []
  end.

Definition trimEnd (s : str) : str := rev (trimStart (rev s)).

Definition trim (s : str) : str := trimEnd (trimStart s).

End Text.

Export Text.
Coercion py : string >-> list.

(** ** Exceptions and results *)

Module Py.

(** The exception classes the fragments raise.  [ValidationError] is
    raised [from] another exception, kept as its cause. *)
Inductive exn : Type :=
  | FileNotFoundError (msg : str)
  | NotADirectoryError (msg : str)
  | PermissionError (msg : str)
  | SecurityError (msg : str)
  | ValidationError (msg : str) (cause : exn)
  | InvalidParametersError (msg : str)
  | KeyError (key : str)
  | OSError (msg : str)
  | ModelCallError (msg : str).

(** [str(e)] *)
Definition str_of_exn (e : exn) : str :=
  match e with
  | FileNotFoundError m | NotADirectoryError m | PermissionError m
  | SecurityError m | InvalidParametersError m | OSError m
  | ModelCallError m => m
  | ValidationError m _ => m
  | KeyError k => py "'" ++ k ++ py "'"
  end.

(** The class of an exception, which is what an [except] clause and a
    caller observe. *)
Inductive exn_kind : Type :=
  | KFileNotFound | KNotADirectory | KPermission | KSecurity | KValidation
  | KInvalidParameters | KKey | KOS | KModelCall.

Definition kind_of (e : exn) : exn_kind :=
  match e with
  | FileNotFoundError _ => KFileNotFound
  | NotADirectoryError _ => KNotADirectory
  | PermissionError _ => KPermission
  | SecurityError _ => KSecurity
  | ValidationError _ _ => KValidation
  | InvalidParametersError _ => KInvalidParameters
  | KeyError _ => KKey
  | OSError _ => KOS
  | ModelCallError _ => KModelCall
  end.

Inductive result (A : Type) : Type :=
  | Ok (a : A)
  | Raise (e : exn).

Arguments Ok {A} a.
Arguments Raise {A} e.

(** The class of the exception a call fails with, if it fails. *)
Definition raised_kind {A : Type} (r : result A) : option exn_kind :=
  match r with
  | Ok _ => None
  | Raise e => Some (kind_of e)
  end.

Definition bind {A B : Type} (r : result A) (k : A -> result B) : result B :=
  match r with
  | Ok a => k a
  | Raise e => Raise e
  end.

(** [try: body  except Exception as e: handler e] *)
Definition try_except {A : Type} (body : result A) (handler : exn -> result A)
  : result A :=
  match body with
  | Ok a => Ok a
  | Raise e => handler e
  end.

(** [if cond: raise e], as a statement. *)
Definition raise_if (cond : bool) (e : exn) : result unit :=
  if cond then Raise e else Ok tt.

(** [d[key]] on a dictionary. *)
Definition getitem {V : Type} (d : gmap str V) (key : str) : result V :=
  match d !! key with
  | Some v => Ok v
  | None => Raise (KeyError key)
  end.

(** [d.get(key, default)] *)
Definition get_default {V : Type} (d : gmap str V) (key : str) (default : V) : V :=
  match d !! key with
  | Some v => v
  | None => default
  end.

(** Python numbers as the fragments compare them: an [int], a finite
    [float] (the rational it denotes), an infinity or NaN.  Comparing an
    [int] with a [float] compares their exact values. *)
Inductive num : Type :=
  | Int (z : Z)
  | Float (q : Q)
  | Inf (negative : bool)
  | NaN.

(** The value of a number on the extended rational line; [None] is NaN. *)
Inductive extended : Type := MinusInf | Rational (q : Q) | PlusInf.

Definition value (a : num) : option extended :=
  match a with
  | Int z => Some (Rational (inject_Z z))
  | Float q => Some (Rational q)
  | Inf true => Some MinusInf
  | Inf false => Some PlusInf
  | NaN => None
  end.

Definition extended_le (x y : extended) : bool :=
  match x, y with
  | MinusInf, _ => true
  | _, PlusInf => true
  | Rational p, Rational q => Qle_bool p q
  | _, _ => false
  end.

(** [a <= b]: false as soon as one side is NaN. *)
Definition num_le (a b : num) : bool :=
  match value a, value b with
  | Some x, Some y => extended_le x y
  | _, _ => false
  end.

(** [a > b]: false as soon as one side is NaN. *)
Definition num_gt (a b : num) : bool :=
  match value a, value b with
  | Some x, Some y => negb (extended_le x y)
  | _, _ => false
  end.

End Py.

Export Py.

(** [result] is a monad; stdpp's notations [x ← c; k] and [c ;; k] read
    as sequencing with the first exception propagating. *)
#[global] Instance result_ret : MRet result := @Ok.
#[global] Instance result_bind : MBind result := fun A B k r => bind r k.

(** ** [os.path] on POSIX paths *)

Module Posixpath.

Definition is_sep (c : ascii) : bool := eqc c "/"%char.

(** [os.path.join(a, b)] *)
Definition join (a b : str) : str :=
  if startswith "/" b then b
  else if bool_decide (a = []) || endswith "/" a then a ++ b
  else a ++ "/" ++ b.

(** [os.path.basename(p)]: what follows the last separator. *)
Fixpoint basename (p : str) : str :=
  match p with
  | [] => []
  | _ :: p' => if existsb is_sep p then basename p' else p
  end.

(** [s.split(sep)] for a separator of one character; empty pieces are
    kept. *)
Fixpoint split_on (sep : ascii) (s : str) : list str :=
  match s with
  | [] => [[]]
  | c :: s' =>
      if eqc c sep then [] :: split_on sep s'
      else match split_on sep s' with
           | [] => [[c]]
           | piece :: pieces => (c :: piece) :: pieces
           end
  end.

(** One turn of the loop of [normpath]; [new_comps] is kept last
    component first. *)
Definition normpath_step (initial_slashes : nat) (new_comps : list str) (comp : str)
  : list str :=
  if bool_decide (comp = []) || bool_decide (comp = ".") then new_comps
  else if negb (bool_decide (comp = ".."))
          || ((initial_slashes =? 0) && bool_decide (new_comps = []))
          || match new_comps with
             | last :: _ => bool_decide (last = "..")
             | [] => false
             end
       then comp :: new_comps
       else match new_comps with
            | _ :: rest => rest
            | [] => []
            end.

(** [os.path.normpath(path)] *)
Definition normpath (path : str) : str :=
  if bool_decide (path = []) then "."
  else
    let initial_slashes :=
      if startswith "/" path
      then if startswith "//" path && negb (startswith "///" path) then 2 else 1
      else 0 in
    let comps := split_on "/" path in
    let new_comps := rev (fold_left (normpath_step initial_slashes) comps []) in
    let path := Text.join "/" new_comps in
    let path := concat (repeat (py "/") initial_slashes) ++ path in
    if bool_decide (path = []) then "." else path.

End Posixpath.

(** ** [retrieval.py]: context selection and hybrid merge *)

Module Retrieval.

(** A chunk is identified by its parent document and its position in it. *)
Definition chunk_id : Type := str * nat.

(** A retrieved document, as the retriever hands it out: the text of the
    chunk and the metadata that names it.  Documents are values: two of
    them are the same element of a set when metadata and text agree. *)
Record Document : Type := {
  metadata : chunk_id;
  page_content : str
}.

#[global] Instance Document_eq_dec : EqDecision Document.
Proof. solve_decision. Defined.

(** The parent document of a retrieved chunk. *)
Definition source (d : Document) : str := (metadata d).1.

(** The retriever of the vector store. *)
Record Retriever : Type := {
  get_relevant_documents : str -> list Document
}.




(** <<
def get_context(query, retriever):
    docs = retriever.get_relevant_documents(query)
    if not docs:
        return "No relevant documents found."
    if len(query.split()) < 5 or "summarize" in query.lower():
        return "\n\n".join([doc.page_content for doc in docs])  # Retrieve full section
    return "\n\n".join([doc.page_content for doc in docs[:3]])  # Top 3 chunks
>> *)
Definition newline : ascii := ascii_of_nat 10.

Definition blank_line : str := [newline; newline].   (* "\n\n" *)

Definition get_context (query : str) (retriever : Retriever) : str :=
  let docs := get_relevant_documents retriever query in
  if bool_decide (docs = []) then py "No relevant documents found."
  else if (length (split query) <? 5) || contains "summarize" (lower query)
  then Text.join blank_line (map page_content docs)
  else Text.join blank_line (map page_content (take 3 docs)).




(** A query is broad when it has fewer than five words or its lower-case
    form contains the cue. *)
Definition broad (query : str) : Prop :=
  word_count query < 5
  \/ exists pre post, lower query = pre ++ "summarize" ++ post.

(** [part] occurs in [text]. *)
Definition occurs_in (part text : str) : Prop :=
  exists pre post, text = pre ++ part ++ post.

End Retrieval.

(** ** [indexing.py]: change detection *)

Module Indexing.

(** A directory of the knowledge base: the names of its regular files and
    its subdirectories, in listing order. *)
#[warnings="-register-all"]
Inductive dir : Type :=
  | Dir (files : list str) (subdirs : list (str * dir)).

(** [os.walk(top)], top-down: one triple [(dirpath, dirnames, filenames)]
    per directory, a directory before its subdirectories. *)
Fixpoint walk (top : str) (d : dir) : list (str * list str * list str) :=
  match d with
  | Dir files subdirs =>
      (top, map fst subdirs, files)
      :: flat_map (fun s => walk (Posixpath.join top (fst s)) (snd s)) subdirs
  end.

(** <<
def get_modified_files(knowledge_base_dir, last_index_time):
    modified_files = []
    for root, _, files in os.walk(knowledge_base_dir):
        for file in files:
            if file.endswith(".md"):
                full_path = os.path.join(root, file)
                if os.path.getmtime(full_path) > last_index_time:
                    modified_files.append(full_path)
    return modified_files
>>
    [getmtime] is the modification time the operating system reports for a
    path; [tree] is the directory that [knowledge_base_dir] names. *)
Section Scan.

Variable getmtime : str -> num.

Definition scan_directory (last_index_time : num) (root : str) (files : list str)
  : list str :=
  flat_map (fun file =>
    if endswith ".md" file
    then let full_path := Posixpath.join root file in
         if num_gt (getmtime full_path) last_index_time then [full_path] else []
    else []) files.

Definition get_modified_files (knowledge_base_dir : str) (tree : dir)
    (last_index_time : num) : list str :=
  flat_map (fun step => match step with
                        | (root, _, files) => scan_directory last_index_time root files
                        end)
           (walk knowledge_base_dir tree).


End Scan.

(** File [name] lies in the directory [dirpath] of the tree [d] rooted at
    [top]. *)
Inductive file_under : str -> dir -> str -> str -> Prop :=
  | file_here top files subdirs name :
      name ∈ files ->
      file_under top (Dir files subdirs) top name
  | file_below top files subdirs sub d dirpath name :
      (sub, d) ∈ subdirs ->
      file_under (Posixpath.join top sub) d dirpath name ->
      file_under top (Dir files subdirs) dirpath name.

End Indexing.

(** ** [validation_rules.py]: generation parameters *)

Module ParameterValidator.

(** <<
class ParameterValidator:
    @staticmethod
    def validate_params(params):
        errors = []
        if not (0 <= params['temperature'] <= 1):
            errors.append("Temperature out of range (0-1)")
        if params['max_length'] <= 0:
            errors.append("Invalid max length")
        if errors:
            raise InvalidParametersError(", ".join(errors)
        )
>> *)
Definition validate_params (params : gmap str num) : result unit :=
  let errors : list str := [] in
  temperature ← getitem params "temperature";
  let errors :=
    if negb (num_le (Int 0) temperature && num_le temperature (Int 1))
    then errors ++ [py "Temperature out of range (0-1)"] else errors in
  max_length ← getitem params "max_length";
  let errors :=
    if num_le max_length (Int 0)
    then errors ++ [py "Invalid max length"] else errors in
  if negb (bool_decide (errors = []))
  then Raise (InvalidParametersError (Text.join ", " errors))
  else Ok tt.

(** The two constraints of the parameter record, as the spec words them. *)
Definition temperature_in_range (t : num) : Prop :=
  num_le (Int 0) t = true /\ num_le t (Int 1) = true.


End ParameterValidator.

(** ** [reasoning_engine.py]: the staged post-processing *)

Module ReasoningEngine.

Record Payload : Type := {
  model : str;
  prompt : str;
  temperature : num;
  max_tokens : num;
  top_p : num;
  repetition_penalty : num
}.

Record MixtralConfig : Type := {
  base_model : str;
  enhanced_mode : str
}.

(** The processor: its configuration, the external model call and the
    three modules of [self.modules], each behind the one method the
    processor calls on it.  Any of them may raise. *)
Record EnhancedProcessor : Type := {
  mixtral_config : MixtralConfig;
  api_call : Payload -> result str;
  cot_process : str -> str -> result str;          (* modules['cot'].process *)
  tot_explore : str -> str -> result str;          (* modules['tot'].explore *)
  validation_validate : str -> str -> result str   (* modules['validation'].validate *)
}.

(** [any(d.values())] on a dictionary of booleans. *)
Definition any_values (d : gmap str bool) : bool :=
  bool_decide (map_Exists (fun _ v => v = true) d).

(** <<
    async def process_query(self, query, context, active_modules, parameters):
        base_payload = {
            "model": self.config.mixtral_config['base_model'],
            "prompt": query,
            "temperature": parameters['temperature'],
            "max_tokens": parameters['max_length'],
            "top_p": parameters.get('top_p', 0.9),
            "repetition_penalty": parameters.get('repetition_penalty', 1.1)
        }
        if any(active_modules.values()):
            base_payload["model"] = self.config.mixtral_config['enhanced_mode']
        response = await self.api_call(base_payload)
        # Apply active processing modules
        if active_modules['cot']:
            response = self.modules['cot'].process(response, context)
        if active_modules['tot']:
            response = self.modules['tot'].explore(response, context)
        if active_modules['validation']:
            response = self.modules['validation'].validate(response, context)
        return response
>>
    [build_payload] is the body up to the model call. *)
Definition build_payload (self : EnhancedProcessor) (query : str)
    (active_modules : gmap str bool) (parameters : gmap str num) : result Payload :=
  t ← getitem parameters "temperature";
  m ← getitem parameters "max_length";
  let base_payload :=
    {| model := base_model (mixtral_config self);
       prompt := query;
       temperature := t;
       max_tokens := m;
       top_p := get_default parameters "top_p" (Float (9 # 10));
       repetition_penalty := get_default parameters "repetition_penalty" (Float (11 # 10)) |} in
  if any_values active_modules
  then Ok {| model := enhanced_mode (mixtral_config self);
             prompt := prompt base_payload;
             temperature := temperature base_payload;
             max_tokens := max_tokens base_payload;
             top_p := top_p base_payload;
             repetition_penalty := repetition_penalty base_payload |}
  else Ok base_payload.

Definition process_query (self : EnhancedProcessor) (query context : str)
    (active_modules : gmap str bool) (parameters : gmap str num) : result str :=
  base_payload ← build_payload self query active_modules parameters;
  response ← api_call self base_payload;
  cot ← getitem active_modules "cot";
  response ← (if cot : bool then cot_process self response context else Ok response);
  tot ← getitem active_modules "tot";
  response ← (if tot : bool then tot_explore self response context else Ok response);
  validation ← getitem active_modules "validation";
  response ← (if validation : bool then validation_validate self response context
              else Ok response);
  Ok response.

(** The pipeline as the spec describes it: a fixed ordered list of stages
    with one contract, and a mask that enables each of them. *)
Inductive Stage : Type := ChainOfThought | TreeOfThought | ConsistencyValidation.

Definition stage_order : list Stage :=
  [ChainOfThought; TreeOfThought; ConsistencyValidation].

Record Mask : Type := {
  cot : bool;
  tot : bool;
  validation : bool
}.

Definition enabled (mask : Mask) (s : Stage) : bool :=
  match s with
  | ChainOfThought => cot mask
  | TreeOfThought => tot mask
  | ConsistencyValidation => validation mask
  end.

Definition run_stage (self : EnhancedProcessor) (s : Stage) : str -> str -> result str :=
  match s with
  | ChainOfThought => cot_process self
  | TreeOfThought => tot_explore self
  | ConsistencyValidation => validation_validate self
  end.

(** One transition: an enabled stage maps the draft and the context to a
    new draft, a disabled one passes the draft through. *)
Definition stage_step (self : EnhancedProcessor) (mask : Mask) (context : str)
    (s : Stage) (draft : str) : result str :=
  if enabled mask s then run_stage self s draft context else Ok draft.

(** The stages of a list applied in its order. *)
Fixpoint run_stages (self : EnhancedProcessor) (mask : Mask) (context : str)
    (stages : list Stage) (draft : str) : result str :=
  match stages with
  | [] => Ok draft
  | s :: rest =>
      draft' ← stage_step self mask context s draft;
      run_stages self mask context rest draft'
  end.

(** The [active_modules] dictionary of a mask. *)
Definition active_modules_of (mask : Mask) : gmap str bool :=
  <[("cot" : str) := cot mask]>
    (<[("tot" : str) := tot mask]>
      (<[("validation" : str) := validation mask]> ∅)).

End ReasoningEngine.

(** ** File handling: directory validation and markdown output *)

Module FileHandling.

(** What the fragments ask of the operating system.  [path_exists],
    [path_isdir] and [access_W_OK] follow symbolic links ([stat]);
    [path_islink] looks at the path itself ([lstat]).  [open_write] is
    [with open(path, 'w', ...) as f: f.write(content)]. *)
Class OS (World : Type) : Type := {
  path_exists : World -> str -> bool;
  path_isdir : World -> str -> bool;
  access_W_OK : World -> str -> bool;
  path_islink : World -> str -> bool;
  open_write : World -> str -> str -> result World
}.

(** <<
def validate_directory(path: str, require_write: bool = True) -> bool:
    '''Validate directory permissions and structure'''
    try:
        if not os.path.exists(path):
            raise FileNotFoundError(f"Path does not exist: {path}")
        if not os.path.isdir(path):
            raise NotADirectoryError(f"Not a directory: {path}")
        if require_write and not os.access(path, os.W_OK):
            raise PermissionError(f"Write access denied: {path}")
        # Prevent symlink attacks
        if os.path.islink(path):
            raise SecurityError("Symlinks not allowed for security reasons")
        return True
    except Exception as e:
        raise ValidationError(str(e)) from e
>>
    [checks] is the body of the [try]. *)
Definition checks `{OS World} (w : World) (path : str) (require_write : bool)
  : result bool :=
  raise_if (negb (path_exists w path))
           (FileNotFoundError ("Path does not exist: " ++ path));;
  raise_if (negb (path_isdir w path))
           (NotADirectoryError ("Not a directory: " ++ path));;
  raise_if (require_write && negb (access_W_OK w path))
           (PermissionError ("Write access denied: " ++ path));;
  raise_if (path_islink w path)
           (SecurityError "Symlinks not allowed for security reasons");;
  Ok true.

Definition validate_directory `{OS World} (w : World) (path : str)
    (require_write : bool) : result bool :=
  try_except (checks w path require_write)
             (fun e => Raise (ValidationError (str_of_exn e) e)).

Definition symlink_message : str := "Symlinks not allowed for security reasons".

(** A pattern that is one character class, such as [[^\w\-_]]. *)
Inductive class_item : Type :=
  | Word                 (* \w *)
  | Char (c : ascii).    (* a literal, escaped or not *)

Record char_class : Type := {
  negated : bool;
  items : list class_item
}.

Definition item_matches (i : class_item) (c : ascii) : bool :=
  match i with
  | Word => isalnum c || eqc c "_"
  | Char x => eqc c x
  end.

Definition class_matches (cls : char_class) (c : ascii) : bool :=
  xorb (negated cls) (existsb (fun i => item_matches i c) (items cls)).

(** [re.sub(pattern, repl, s)] for such a pattern: every character that
    matches is replaced. *)
Definition re_sub (cls : char_class) (repl s : str) : str :=
  flat_map (fun c => if class_matches cls c then repl else [c]) s.

(** <<
def write_markdown(content: str, directory: str, filename: str) -> str:
    '''Safely write processed content to markdown file'''
    validated = validate_directory(directory)
    safe_filename = re.sub(r'[^\w\-_]', '', filename)[:255]
    full_path = os.path.join(directory, f"{safe_filename}.md")
    with open(full_path, 'w', encoding='utf-8', errors='xmlcharrefreplace') as f:
        f.write(content)
    return os.path.normpath(full_path)
>> *)
Definition unsafe_chars : char_class :=
  {| negated := true; items := [Word; Char "-"; Char "_"] |}.

Definition safe_filename_of (filename : str) : str :=
  take 255 (re_sub unsafe_chars [] filename).

Definition write_markdown `{OS World} (w : World) (content directory filename : str)
  : result (str * World) :=
  validated ← validate_directory w directory true;
  let safe_filename := take 255 (re_sub unsafe_chars [] filename) in
  let full_path := Posixpath.join directory (safe_filename ++ ".md") in
  w' ← open_write w full_path content;
  Ok (Posixpath.normpath full_path, w').

(** The character class the spec names: word characters, hyphen, underscore. *)
Definition allowed (c : ascii) : bool :=
  isalnum c || eqc c "_" || eqc c "-".

(** A small file system to run the fragments on: a table from paths to
    nodes, links holding the path they point to.  Creating a file does not
    look at its parent. *)
Inductive node : Type :=
  | Directory (writable : bool)
  | Regular (writable : bool) (content : str)
  | Symlink (target : str).

Fixpoint resolve (fuel : nat) (t : gmap str node) (path : str) : option (str * node) :=
  match fuel with
  | O => None
  | S fuel' =>
      match t !! path with
      | Some (Symlink target) => resolve fuel' t target
      | Some n => Some (path, n)
      | None => None
      end
  end.

(** [stat]: at most 40 links are followed. *)
Definition stat (t : gmap str node) (path : str) : option (str * node) :=
  resolve 40 t path.

#[global] Instance table_os : OS (gmap str node) := {|
  path_exists t p := bool_decide (is_Some (stat t p));
  path_isdir t p :=
    match stat t p with Some (_, Directory _) => true | _ => false end;
  access_W_OK t p :=
    match stat t p with
    | Some (_, Directory w) | Some (_, Regular w _) => w
    | _ => false
    end;
  path_islink t p :=
    match t !! p with Some (Symlink _) => true | _ => false end;
  open_write t p content :=
    match stat t p with
    | Some (_, Directory _) => Raise (OSError "Is a directory")
    | Some (q, Regular true _) => Ok (<[q := Regular true content]> t)
    | Some (_, Regular false _) => Raise (PermissionError "Permission denied")
    | Some (_, Symlink _) => Raise (OSError "Too many levels of symbolic links")
    | None => Ok (<[p := Regular true content]> t)
    end
|}.

End FileHandling.

(** ** [instructionUpdater.ts]: reading new instructions *)

Module InstructionUpdater.

(** What the readline interface can be told by its input. *)
Inductive event : Type :=
  | Line (line : str)    (* a line was entered: 'line' *)
  | EndOfInput           (* the input ended (Ctrl+D): the interface closes *)
  | Sigint.              (* Ctrl+C: 'SIGINT' *)

Inductive promise : Type :=
  | Pending
  | Resolved (value : str)
  | Rejected (reason : str).

Record state : Type := {
  newInstructions : str;
  closed : bool;          (* the interface has been closed *)
  settled : promise;      (* the promise [updateInstructions] returned *)
  console : list str      (* what [console.log] printed, oldest first *)
}.

Definition console_log (msg : str) (st : state) : state :=
  {| newInstructions := newInstructions st; closed := closed st;
     settled := settled st; console := console st ++ [msg] |}.

(** [resolve(value)]: only a pending promise is settled. *)
Definition resolve (value : str) (st : state) : state :=
  match settled st with
  | Pending =>
      {| newInstructions := newInstructions st; closed := closed st;
         settled := Resolved value; console := console st |}
  | _ => st
  end.

(** <<
        rl.on('line', (line) => {
            newInstructions += line + '\n';
        });
>> *)
Definition line_feed : str := [ascii_of_nat 10].   (* '\n' *)

Definition on_line (line : str) (st : state) : state :=
  {| newInstructions := newInstructions st ++ (line ++ line_feed);
     closed := closed st; settled := settled st; console := console st |}.

(** <<
        rl.on('close', () => {
            console.log("Readline interface closed.");
            resolve(newInstructions.trim());
        });
>> *)
Definition on_close (st : state) : state :=
  let st := console_log "Readline interface closed." st in
  resolve (trim (newInstructions st)) st.

(** [rl.close()]: the first call marks the interface closed and emits
    'close'; later calls do nothing. *)
Definition rl_close (st : state) : state :=
  if closed st then st
  else on_close {| newInstructions := newInstructions st; closed := true;
                   settled := settled st; console := console st |}.

(** <<
        rl.on('SIGINT', () => {
            console.log("SIGINT received, closing readline interface.");
            rl.close();
        });
>> *)
Definition on_sigint (st : state) : state :=
  rl_close (console_log "SIGINT received, closing readline interface." st).

(** The interface delivers an event to its listener; once closed it
    delivers nothing. *)
Definition dispatch (st : state) (ev : event) : state :=
  if closed st then st
  else match ev with
       | Line line => on_line line st
       | EndOfInput => rl_close st
       | Sigint => on_sigint st
       end.

(** The executor of the promise: [newInstructions = ''] and the prompt. *)
Definition initial : state :=
  console_log "Enter new instructions (press Ctrl+D on a new line when finished):"
    {| newInstructions := []; closed := false; settled := Pending; console := [] |}.

(** [updateInstructions()], run against the events of its input: the
    state of the returned promise once they have been delivered. *)
Definition run (events : list event) : state := fold_left dispatch events initial.

Definition updateInstructions (events : list event) : promise :=
  settled (run events).

(** What the 'line' listener has accumulated after some lines. *)
Definition accumulated (lines : list str) : str :=
  concat (map (fun line => line ++ line_feed) lines).

End InstructionUpdater.

(** ** Concrete inputs *)

Module Examples.
Import Retrieval.



Definition minutes_text : str := concat (repeat (py "meeting notes. ") 200).

Definition minutes0 : Document :=
  {| metadata := ("/kb/minutes.md" : str, 0); page_content := take 1994 minutes_text |}.

Definition minutes1 : Document :=
  {| metadata := ("/kb/minutes.md" : str, 1); page_content := drop 1800 minutes_text |}.

Definition kb_corpus : gmap str str :=
  <[("/kb/minutes.md" : str) := minutes_text]>
    (<[("/kb/alpha.md" : str) := py "alpha release plan"]>
      (<[("/kb/beta.md" : str) := py "beta test report"]> ∅)).




(** A retriever that finds both chunks of the long note, one that finds
    nothing, and one that finds five chunks. *)
Definition minutes_retriever : Retriever :=
  {| get_relevant_documents := fun _ => [minutes0; minutes1] |}.


Definition numbered (n : nat) : Document :=
  {| metadata := ("/kb/log.md" : str, n);
     page_content := "entry " ++ [ascii_of_nat (48 + n)] |}.

Definition log_retriever : Retriever :=
  {| get_relevant_documents := fun _ => map numbered [1; 2; 3; 4; 5] |}.

(** A processor whose model answers with a fixed draft and whose modules
    each append their mark; the request enables the last two stages. *)
Import ReasoningEngine.

Definition demo_processor : EnhancedProcessor :=
  {| mixtral_config :=
       {| base_model := "togethercomputer/Mixtral-8x7B-Instruct-v0.1";
          enhanced_mode := "togethercomputer/Mixtral-8x7B-Instruct-v0.1:enhanced" |};
     api_call := fun _ => Ok (py "draft");
     cot_process := fun response _ => Ok (response ++ " +cot");
     tot_explore := fun response _ => Ok (response ++ " +tot");
     validation_validate := fun response context => Ok (response ++ " +checked:" ++ context) |}.

Definition demo_mask : Mask := {| cot := false; tot := true; validation := true |}.

Definition demo_parameters : gmap str num :=
  <[("temperature" : str) := Float (7 # 10)]>
    (<[("max_length" : str) := Int 1024]> ∅).

Definition demo_payload : Payload :=
  {| model := "togethercomputer/Mixtral-8x7B-Instruct-v0.1:enhanced";
     prompt := "what is due";
     temperature := Float (7 # 10);
     max_tokens := Int 1024;
     top_p := Float (9 # 10);
     repetition_penalty := Float (11 # 10) |}.

(** A knowledge base on disk, with the modification time of each file in
    seconds since the epoch. *)
Definition demo_tree : Indexing.dir :=
  Indexing.Dir [py "todo.md"; py "old.md"; py "cover.png"]
    [(py "projects", Indexing.Dir [py "weavr.md"] [])].

Definition demo_mtime (path : str) : num :=
  if bool_decide (path = "/kb/todo.md") then Float (1709337600 # 1)
  else if bool_decide (path = "/kb/projects/weavr.md") then Float (3418675201 # 2)
  else if bool_decide (path = "/kb/cover.png") then Float (1709337600 # 1)
  else Float (1709164800 # 1).

(** A file system with a writable directory, a read-only one, a link to
    each, a link to a file and a link to nothing. *)
Import FileHandling.

Definition demo_fs : gmap str node :=
  <[("/notes" : str) := Directory true]>
    (<[("/archive" : str) := Directory false]>
      (<[("/todo.md" : str) := Regular true "call back"]>
        (<[("/link-to-notes" : str) := Symlink "/notes"]>
          (<[("/link-to-archive" : str) := Symlink "/archive"]>
            (<[("/link-to-file" : str) := Symlink "/todo.md"]>
              (<[("/vault" : str) := Symlink "/missing"]> ∅)))))).


End Examples.

(** ** File watcher: [SecurityValidator] and [DirectoryHandler] *)

Module Watcher.
Import FileHandling.

(** [os.access(path, os.R_OK)]; like [access_W_OK] it follows links. *)
Class ReadAccess (World : Type) : Type := {
  access_R_OK : World -> str -> bool
}.

(** What a handler does with a file: [self.processor.process_file]. *)
Class Processor (P : Type) : Type := {
  process_file : P -> str -> P
}.

(** The event the observer hands to a handler. *)
Record FileSystemEvent : Type := {
  is_directory : bool;
  src_path : str
}.

(** <<
class SecurityValidator:
    @staticmethod
    def validate_path(path):
        if os.path.islink(path):
            return False  # Prevent symlink attacks
        return os.path.exists(path) and os.access(path, os.R_OK)
>> *)
Definition validate_path `{OS World} `{ReadAccess World} (w : World) (path : str)
  : bool :=
  if path_islink w path then false
  else path_exists w path && access_R_OK w path.

(** <<
    def on_modified(self, event):
        if not event.is_directory and self.validator.validate_path(event.src_path):
            self.processor.process_file(event.src_path)
>> *)
Definition on_modified `{OS World} `{ReadAccess World} `{Processor P}
    (w : World) (processor : P) (event : FileSystemEvent) : P :=
  if negb (is_directory event) && validate_path w (src_path event)
  then process_file processor (src_path event)
  else processor.

(** The observer delivers the events of a run one at a time, each against
    the file system as it is at that moment. *)
Definition deliver `{OS World} `{ReadAccess World} `{Processor P}
    (processor : P) (events : list (World * FileSystemEvent)) : P :=
  fold_left (fun p we => on_modified (fst we) p (snd we)) events processor.

(** An event that names a file which, at that moment, is no link, exists
    and can be read. *)
Definition passes `{OS World} `{ReadAccess World} (we : World * FileSystemEvent)
  : bool :=
  negb (is_directory (snd we))
  && negb (path_islink (fst we) (src_path (snd we)))
  && path_exists (fst we) (src_path (snd we))
  && access_R_OK (fst we) (src_path (snd we)).

(** A processor that records the paths it is given, oldest first. *)
#[global] Instance recorder : Processor (list str) := {|
  process_file log path := log ++ [path]
|}.

(** On the table file system whatever exists can be read. *)
#[global] Instance table_read : ReadAccess (gmap str node) := {|
  access_R_OK t p := bool_decide (is_Some (stat t p))
|}.

End Watcher.

(** ** [ReasoningControls.jsx]: the module toggles *)

Module ReasoningControls.

(** A JavaScript object whose keys are not array indices: its properties
    in creation order, one per key. *)
Definition object (V : Type) : Type := list (str * V).

(** [o[key]]; [None] is [undefined]. *)
Fixpoint get {V : Type} (o : object V) (key : str) : option V :=
  match o with
  | [] => None
  | (k, v) :: o' => if bool_decide (k = key) then Some v else get o' key
  end.

(** [{...o, [key]: v}]: an existing property keeps its place and takes
    the value, a new one goes last. *)
Fixpoint spread_set {V : Type} (o : object V) (key : str) (v : V) : object V :=
  match o with
  | [] => [(key, v)]
  | (k, x) :: o' =>
      if bool_decide (k = key) then (k, v) :: o' else (k, x) :: spread_set o' key v
  end.

(** [Object.keys(o)] *)
Definition keys {V : Type} (o : object V) : list str := map fst o.

(** [!v] and the truth of [v] for a boolean or [undefined]. *)
Definition js_not (v : option bool) : bool :=
  match v with
  | Some b => negb b
  | None => true
  end.

Definition truthy (v : option bool) : bool :=
  match v with
  | Some b => b
  | None => false
  end.

(** <<
  const [modules, setModules] = useState({
    cot: false,
    tot: false,
    validation: true
  });
>> *)
Definition initial_modules : object bool :=
  [("cot" : str, false); ("tot" : str, false); ("validation" : str, true)].

(** <<
  const handleModuleToggle = (module) => {
    setModules(prev => ({
      ...prev,
      [module]: !prev[module]
    }));
  };
>>
    The function below is the state update the handler queues. *)
Definition handleModuleToggle (module : str) (prev : object bool) : object bool :=
  spread_set prev module (js_not (get prev module)).

(** The [modules] field of the body of [generateRequest]:
    [Object.keys(modules).filter(m => modules[m])]. *)
Definition request_modules (modules : object bool) : list str :=
  List.filter (fun m => truthy (get modules m)) (keys modules).

(** The state after the buttons named by [clicks] were pressed in turn. *)
Definition after_clicks (clicks : list str) (modules : object bool) : object bool :=
  fold_left (fun st module => handleModuleToggle module st) clicks modules.

(** How often [module] was clicked. *)
Definition clicked (module : str) (clicks : list str) : nat :=
  length (List.filter (fun c => bool_decide (c = module)) clicks).

End ReasoningControls.

(** ** Well-formed directory listings *)

Module Listing.
Import Indexing.

(** A name as a directory listing gives it: not empty, no separator. *)
Definition is_name (name : str) : bool :=
  negb (bool_decide (name = [])) && negb (existsb Posixpath.is_sep name).

(** Every entry of the tree carries such a name. *)
Fixpoint names_ok (d : dir) : bool :=
  match d with
  | Dir files subdirs =>
      forallb is_name files
      && forallb (fun s => is_name (fst s) && names_ok (snd s)) subdirs
  end.

End Listing.

(** ** More concrete inputs *)

Module MoreExamples.
Import Retrieval Examples.




End MoreExamples.

Module ReasoningExamples.
Import ReasoningEngine Examples.

(** A request as a client would send it that lists only what is enabled. *)
Definition only_validation : gmap str bool := <[("validation" : str) := true]> ∅.

(** The demo processor with a tree-of-thought module that fails, and with
    another chain-of-thought module. *)
Definition failing_tot_processor : EnhancedProcessor :=
  {| mixtral_config := mixtral_config demo_processor;
     api_call := api_call demo_processor;
     cot_process := cot_process demo_processor;
     tot_explore := fun _ _ => Raise (ModelCallError "exploration timed out");
     validation_validate := validation_validate demo_processor |}.

Definition other_cot_processor : EnhancedProcessor :=
  {| mixtral_config := mixtral_config demo_processor;
     api_call := api_call demo_processor;
     cot_process := fun response _ => Ok (response ++ " +steps");
     tot_explore := tot_explore demo_processor;
     validation_validate := validation_validate demo_processor |}.

End ReasoningExamples.

Module ValidatorExamples.

(** Parameters with a temperature in range and a length that is no number. *)
Definition nan_length : gmap str num :=
  <[("temperature" : str) := Float (1 # 2)]>
    (<[("max_length" : str) := NaN]> ∅).

End ValidatorExamples.

Module FileExamples.
Import FileHandling Examples.

(** The example file system after a note was written into [/notes] under
    a name with no usable character, and under a name with some. *)
Definition after_unusable_name : gmap str node :=
  match write_markdown demo_fs "# Q3" "/notes" "?!" with
  | Ok (_, fs) => fs
  | Raise _ => ∅
  end.

Definition after_report : gmap str node :=
  match write_markdown demo_fs "# Q3" "/notes" "../Q3 plan: draft/v2.md" with
  | Ok (_, fs) => fs
  | Raise _ => ∅
  end.

End FileExamples.

(* ================================================================== *)
(** * Part II: properties                                              *)
(* ================================================================== *)

(** ** Facts about text *)

Module TextFacts.

Lemma eqc_true (a b : ascii) : eqc a b = true <-> a = b.
Proof. unfold eqc. apply Ascii.eqb_eq. Qed.

Lemma eqc_refl (a : ascii) : eqc a a = true.
Proof. apply eqc_true. reflexivity. Qed.

(** [startswith] decides being a prefix. *)
Lemma startswith_spec (p s : str) :
  startswith p s = true <-> exists t, s = p ++ t.
Proof.
  revert s. induction p as [|a p IH]; intros s; simpl.
  - split; [intros _; exists s; reflexivity | reflexivity].
  - destruct s as [|b s].
    + split; [discriminate | intros [t Ht]; discriminate].
    + rewrite andb_true_iff, eqc_true, IH. split.
      * intros [-> [t ->]]. exists t. reflexivity.
      * intros [t Ht]. injection Ht as -> ->. split; [reflexivity | exists t; reflexivity].
Qed.

Lemma startswith_app (p t : str) : startswith p (p ++ t) = true.
Proof. apply startswith_spec. exists t. reflexivity. Qed.

(** [contains] decides being a substring. *)
Lemma contains_spec (needle hay : str) :
  contains needle hay = true <-> exists pre post, hay = pre ++ needle ++ post.
Proof.
  induction hay as [|c hay IH]; simpl.
  - rewrite orb_false_r, startswith_spec. split.
    + intros [t Ht]. exists [], t. exact Ht.
    + intros [pre [post H]]. destruct pre; [exists post; exact H | discriminate].
  - rewrite orb_true_iff, startswith_spec, IH. split.
    + intros [[t Ht] | [pre [post H]]].
      * exists [], t. exact Ht.
      * exists (c :: pre), post. simpl. rewrite H. reflexivity.
    + intros [pre [post H]]. destruct pre as [|c' pre].
      * left. exists post. exact H.
      * right. injection H as _ ->. exists pre, post. reflexivity.
Qed.

Lemma contains_length (needle hay : str) :
  contains needle hay = true -> length needle <= length hay.
Proof.
  intros [pre [post ->]]%contains_spec. rewrite !length_app. lia.
Qed.

(** [endswith] decides being a suffix. *)
Lemma endswith_spec (p s : str) :
  endswith p s = true <-> exists t, s = t ++ p.
Proof.
  unfold endswith. rewrite startswith_spec. split.
  - intros [t Ht]. exists (rev t).
    rewrite <- (rev_involutive s), Ht, rev_app_distr, rev_involutive. reflexivity.
  - intros [t ->]. exists (rev t). apply rev_app_distr.
Qed.

(** Every part of a joined list is a substring of the result. *)
Lemma join_cons (sep p : str) (rest : list str) :
  rest <> [] -> Text.join sep (p :: rest) = p ++ sep ++ Text.join sep rest.
Proof. destruct rest; [congruence | reflexivity]. Qed.

Lemma join_part (sep : str) (parts : list str) (p : str) :
  p ∈ parts -> exists pre post, Text.join sep parts = pre ++ p ++ post.
Proof.
  induction parts as [|q parts IH]; intros Hin.
  - inversion Hin.
  - destruct parts as [|q' parts].
    + apply list_elem_of_singleton in Hin as ->. exists [], []. simpl.
      rewrite app_nil_r. reflexivity.
    + rewrite join_cons by discriminate.
      apply elem_of_cons in Hin as [-> | Hin].
      * exists [], (sep ++ Text.join sep (q' :: parts)). reflexivity.
      * destruct (IH Hin) as [pre [post ->]].
        exists (q ++ sep ++ pre), post. rewrite <- !app_assoc. reflexivity.
Qed.

(** [split] yields the maximal runs of non-whitespace: its pieces are
    non-empty and free of whitespace, and read together they are the text
    without its whitespace. *)
Lemma split_from_pieces (tok s : str) :
  Forall (fun c => isspace c = false) tok ->
  Forall (fun t => t <> [] /\ Forall (fun c => isspace c = false) t) (split_from tok s).
Proof.
  revert tok. induction s as [|c s IH]; intros tok Htok; simpl.
  - destruct tok as [|a tok]; constructor; [|constructor].
    split.
    + intros E. apply (f_equal (@length ascii)) in E.
      rewrite length_rev in E. discriminate.
    + apply Forall_rev. exact Htok.
  - destruct (isspace c) eqn:Hc.
    + destruct tok as [|a tok]; [apply IH; constructor|].
      constructor; [|apply IH; constructor].
      split.
      * intros E. apply (f_equal (@length ascii)) in E.
        rewrite length_rev in E. discriminate.
      * apply Forall_rev. exact Htok.
    + apply IH. constructor; assumption.
Qed.

Lemma split_from_concat (tok s : str) :
  Forall (fun c => isspace c = false) tok ->
  concat (split_from tok s) = rev tok ++ List.filter (fun c => negb (isspace c)) s.
Proof.
  revert tok. induction s as [|c s IH]; intros tok Htok; simpl.
  - destruct tok; simpl; rewrite ?app_nil_r; reflexivity.
  - destruct (isspace c) eqn:Hc; simpl.
    + destruct tok as [|a tok]; simpl; rewrite IH by constructor; reflexivity.
    + rewrite IH by (constructor; assumption). simpl.
      rewrite <- app_assoc. reflexivity.
Qed.

Lemma split_pieces (s : str) :
  Forall (fun t => t <> [] /\ Forall (fun c => isspace c = false) t) (split s).
Proof. apply split_from_pieces. constructor. Qed.

Lemma split_concat (s : str) :
  concat (split s) = List.filter (fun c => negb (isspace c)) s.
Proof. unfold split. rewrite split_from_concat by constructor. reflexivity. Qed.

(** [len(s.split())] is the number of words. *)
Lemma length_split_from (tok s : str) :
  length (split_from tok s)
  = word_starts (bool_decide (tok = [])) s + (if bool_decide (tok = []) then 0 else 1).
Proof.
  revert tok. induction s as [|c s IH]; intros tok; simpl.
  - destruct tok; reflexivity.
  - destruct (isspace c) eqn:Hc.
    + destruct tok as [|a tok]; simpl; rewrite IH; simpl; lia.
    + rewrite IH. destruct tok; simpl; lia.
Qed.

Lemma length_split (s : str) : length (split s) = word_count s.
Proof. unfold split, word_count. rewrite length_split_from. simpl. lia. Qed.

End TextFacts.

(** ** Facts about results *)

Module PyFacts.

Lemma bind_ok {A B : Type} (a : A) (k : A -> result B) : mbind k (Ok a) = k a.
Proof. reflexivity. Qed.

Lemma bind_raise {A B : Type} (e : exn) (k : A -> result B) :
  mbind k (Raise e) = Raise e.
Proof. reflexivity. Qed.

End PyFacts.

(** ** Hybrid merge *)

Module RetrievalFacts.
Import Retrieval TextFacts.






End RetrievalFacts.

Module RetrievalResults.
Import Retrieval TextFacts RetrievalFacts Examples.





End RetrievalResults.

(** ** Context selection *)

Module ContextResults.
Import Retrieval TextFacts Examples.

(** The test of [get_context] decides [broad]. *)
Lemma broad_test (query : str) :
  (length (split query) <? 5) || contains "summarize" (lower query) = true
  <-> broad query.
Proof.
  unfold broad. rewrite orb_true_iff, Nat.ltb_lt, length_split, contains_spec.
  reflexivity.
Qed.

Lemma get_context_none (query : str) (retriever : Retriever) :
  get_relevant_documents retriever query = [] ->
  get_context query retriever = "No relevant documents found.".
Proof. intros E. unfold get_context. rewrite E. reflexivity. Qed.

Lemma get_context_broad (query : str) (retriever : Retriever) :
  get_relevant_documents retriever query <> [] -> broad query ->
  get_context query retriever
  = Text.join blank_line (map page_content (get_relevant_documents retriever query)).
Proof.
  intros Hne Hb. unfold get_context.
  rewrite bool_decide_eq_false_2 by exact Hne.
  apply broad_test in Hb. rewrite Hb. reflexivity.
Qed.

Lemma get_context_specific (query : str) (retriever : Retriever) :
  get_relevant_documents retriever query <> [] -> ~ broad query ->
  get_context query retriever
  = Text.join blank_line
      (map page_content (take 3 (get_relevant_documents retriever query))).
Proof.
  intros Hne Hb. unfold get_context.
  rewrite bool_decide_eq_false_2 by exact Hne.
  destruct ((length (split query) <? 5) || contains "summarize" (lower query)) eqn:E.
  - exfalso. apply Hb, broad_test, E.
  - reflexivity.
Qed.

Lemma joined_content_occurs (docs : list Document) (d : Document) :
  d ∈ docs -> occurs_in (page_content d) (Text.join blank_line (map page_content docs)).
Proof.
  intros Hd. apply join_part. apply list_elem_of_fmap_2. exact Hd.
Qed.




(** C5, as the code has it.  With at least one document retrieved: a
    broad query (fewer than five words, or "summarize" in its lower-case
    form) gets the text of every retrieved chunk, joined by blank lines; any
    other query gets the text of the first three retrieved chunks, three
    being fixed.  In both cases what is returned is chunk text as retrieved,
    and each chunk that is returned occurs in the result in full. *)
Theorem get_context_granularity (query : str) (retriever : Retriever) :
  get_relevant_documents retriever query <> [] ->
  (broad query ->
     get_context query retriever
     = Text.join blank_line (map page_content (get_relevant_documents retriever query))
     /\ forall d, d ∈ get_relevant_documents retriever query ->
          occurs_in (page_content d) (get_context query retriever))
  /\ (~ broad query ->
     get_context query retriever
     = Text.join blank_line
         (map page_content (take 3 (get_relevant_documents retriever query)))
     /\ forall d, d ∈ take 3 (get_relevant_documents retriever query) ->
          occurs_in (page_content d) (get_context query retriever)).
Proof.
  intros Hne. split; intros Hb.
  - rewrite (get_context_broad _ _ Hne Hb). split; [reflexivity|].
    intros d Hd. apply joined_content_occurs, Hd.
  - rewrite (get_context_specific _ _ Hne Hb). split; [reflexivity|].
    intros d Hd. apply joined_content_occurs, Hd.
Qed.

Lemma get_context_granularity_witness :
  (broad "which entry mentions the quarterly budget review" ->
     get_context "which entry mentions the quarterly budget review" log_retriever
     = Text.join blank_line
         (map page_content
            (get_relevant_documents log_retriever
               "which entry mentions the quarterly budget review"))
     /\ forall d, d ∈ get_relevant_documents log_retriever
                        "which entry mentions the quarterly budget review" ->
          occurs_in (page_content d)
            (get_context "which entry mentions the quarterly budget review" log_retriever))
  /\ (~ broad "which entry mentions the quarterly budget review" ->
     get_context "which entry mentions the quarterly budget review" log_retriever
     = Text.join blank_line
         (map page_content
            (take 3 (get_relevant_documents log_retriever
                       "which entry mentions the quarterly budget review")))
     /\ forall d, d ∈ take 3 (get_relevant_documents log_retriever
                                "which entry mentions the quarterly budget review") ->
          occurs_in (page_content d)
            (get_context "which entry mentions the quarterly budget review" log_retriever)).
Proof.
  apply (get_context_granularity
           "which entry mentions the quarterly budget review" log_retriever).
  simpl. discriminate.
Defined.

(** The two branches, evaluated on five retrieved entries. *)
Example specific_query_gets_three :
  get_context "which entry mentions the quarterly budget review" log_retriever
  = "entry 1" ++ blank_line ++ "entry 2" ++ blank_line ++ "entry 3".
Proof. reflexivity. Qed.

Example broad_query_gets_all :
  get_context "Summarize the log" log_retriever
  = "entry 1" ++ blank_line ++ "entry 2" ++ blank_line ++ "entry 3"
    ++ blank_line ++ "entry 4" ++ blank_line ++ "entry 5".
Proof. reflexivity. Qed.

Example cue_makes_a_long_query_broad :
  word_count "please SUMMARIZE what the log says about budgets" = 8
  /\ broad "please SUMMARIZE what the log says about budgets".
Proof.
  split; [reflexivity|]. right. apply contains_spec. reflexivity.
Qed.

(** C5 fails as stated: for the three-word query of the spec's scenario
    and a 3000-character note indexed as two chunks, both of which are
    retrieved, the result is the two chunk texts joined by a blank line; the
    text of the parent document does not occur in it. *)
Lemma broad_result_lacks_parent_text :
  broad "summarize meeting notes"
  /\ get_relevant_documents minutes_retriever "summarize meeting notes"
     = [minutes0; minutes1]
  /\ kb_corpus !! source minutes0 = Some minutes_text
  /\ get_context "summarize meeting notes" minutes_retriever
     = page_content minutes0 ++ blank_line ++ page_content minutes1
  /\ ~ occurs_in minutes_text (get_context "summarize meeting notes" minutes_retriever).
Proof.
  split; [|split; [|split; [|split]]].
  - left. vm_compute. lia.
  - reflexivity.
  - vm_compute. reflexivity.
  - vm_compute. reflexivity.
  - intros H. apply contains_spec in H. vm_compute in H. discriminate.
Qed.

End ContextResults.

(** ** Change detection *)

Module IndexingResults.
Import Indexing TextFacts.

(** Induction on a directory tree, with the property at hand for every
    subdirectory. *)
Lemma dir_induction (P : dir -> Prop) :
  (forall files subdirs, Forall (fun s => P (snd s)) subdirs -> P (Dir files subdirs)) ->
  forall d, P d.
Proof.
  intros step. fix IH 1. intros [files subdirs]. apply step.
  induction subdirs as [|[name sub] subdirs IHs]; constructor.
  - apply IH.
  - exact IHs.
Qed.

(** [os.walk] visits exactly the directories that hold the files of the
    tree, each with its own file names. *)
Lemma walk_files (d : dir) : forall top root dirs files name,
  (root, dirs, files) ∈ walk top d -> name ∈ files -> file_under top d root name.
Proof.
  induction d as [fs subdirs IH] using dir_induction.
  intros top root dirs files name Hstep Hname. simpl in Hstep.
  apply elem_of_cons in Hstep as [E | Hstep].
  - injection E as -> _ ->. apply file_here. exact Hname.
  - apply list_elem_of_In, in_flat_map in Hstep as [[sub d'] [Hsub Hin]].
    apply list_elem_of_In in Hsub, Hin.
    rewrite Forall_forall in IH.
    eapply file_below; [exact Hsub|].
    eapply (IH _ Hsub); eassumption.
Qed.

Lemma file_under_walk top d root name :
  file_under top d root name ->
  exists dirs files, (root, dirs, files) ∈ walk top d /\ name ∈ files.
Proof.
  induction 1 as [top fs subdirs name Hname
                 | top fs subdirs sub d root name Hsub _ [dirs [files [Hw Hn]]]].
  - exists (map fst subdirs), fs. split; [simpl; left | exact Hname].
  - exists dirs, files. split; [|exact Hn].
    simpl. right. apply list_elem_of_In, in_flat_map.
    exists (sub, d). split; apply list_elem_of_In; assumption.
Qed.

Section Scan.

Variable getmtime : str -> num.

Lemma scan_directory_elem since root files path :
  path ∈ scan_directory getmtime since root files
  <-> exists name, name ∈ files /\ endswith ".md" name = true
                   /\ path = Posixpath.join root name
                   /\ num_gt (getmtime path) since = true.
Proof.
  unfold scan_directory. rewrite list_elem_of_In, in_flat_map. split.
  - intros [name [Hname Hin]]. exists name.
    destruct (endswith ".md" name) eqn:Hmd; [|inversion Hin].
    destruct (num_gt (getmtime (Posixpath.join root name)) since) eqn:Hgt;
      [|inversion Hin].
    destruct Hin as [<- | []].
    repeat split; [apply list_elem_of_In; exact Hname | exact Hgt].
  - intros [name [Hname [Hmd [-> Hgt]]]]. exists name.
    split; [apply list_elem_of_In; exact Hname|].
    rewrite Hmd, Hgt. left. reflexivity.
Qed.


End Scan.

(** A scan of a small tree: of three notes and a picture, the two notes
    touched after the last index time are returned, in walk order. *)
Example scan_demo :
  get_modified_files Examples.demo_mtime "/kb" Examples.demo_tree (Float (1709251200 # 1))
  = [py "/kb/todo.md"; py "/kb/projects/weavr.md"].
Proof. vm_compute. reflexivity. Qed.

End IndexingResults.

(** ** The reasoning pipeline *)

Module ReasoningResults.
Import ReasoningEngine PyFacts.

Lemma active_cot mask : getitem (active_modules_of mask) "cot" = Ok (cot mask).
Proof. unfold getitem, active_modules_of. rewrite lookup_insert_eq. reflexivity. Qed.

Lemma active_tot mask : getitem (active_modules_of mask) "tot" = Ok (tot mask).
Proof.
  unfold getitem, active_modules_of.
  rewrite lookup_insert_ne by discriminate. rewrite lookup_insert_eq. reflexivity.
Qed.

Lemma active_validation mask :
  getitem (active_modules_of mask) "validation" = Ok (validation mask).
Proof.
  unfold getitem, active_modules_of.
  rewrite !lookup_insert_ne by discriminate. rewrite lookup_insert_eq. reflexivity.
Qed.

(** The request is built whenever the two required parameters are
    present, and it names the enhanced profile exactly when some stage is
    enabled. *)
Lemma any_values_mask (mask : Mask) :
  any_values (active_modules_of mask) = cot mask || tot mask || validation mask.
Proof.
  unfold any_values, active_modules_of.
  destruct (cot mask) eqn:Hc; [|destruct (tot mask) eqn:Ht; [|destruct (validation mask) eqn:Hv]].
  - apply bool_decide_eq_true. exists ("cot" : str), true.
    split; [apply lookup_insert_eq | reflexivity].
  - apply bool_decide_eq_true. exists ("tot" : str), true.
    split; [|reflexivity].
    rewrite lookup_insert_ne by discriminate. apply lookup_insert_eq.
  - apply bool_decide_eq_true. exists ("validation" : str), true.
    split; [|reflexivity].
    rewrite !lookup_insert_ne by discriminate. apply lookup_insert_eq.
  - apply bool_decide_eq_false. intros [k [v [Hk ->]]].
    apply lookup_insert_Some in Hk as [[_ E] | [_ Hk]]; [discriminate|].
    apply lookup_insert_Some in Hk as [[_ E] | [_ Hk]]; [discriminate|].
    apply lookup_insert_Some in Hk as [[_ E] | [_ Hk]]; [discriminate|].
    rewrite lookup_empty in Hk. discriminate.
Qed.

Lemma build_payload_total (self : EnhancedProcessor) (query : str) (mask : Mask)
    (parameters : gmap str num) (t m : num) :
  parameters !! ("temperature" : str) = Some t ->
  parameters !! ("max_length" : str) = Some m ->
  exists payload,
    build_payload self query (active_modules_of mask) parameters = Ok payload
    /\ prompt payload = query
    /\ model payload
       = if cot mask || tot mask || validation mask
         then enhanced_mode (mixtral_config self)
         else base_model (mixtral_config self).
Proof.
  intros Ht Hm. unfold build_payload, getitem.
  rewrite Ht, bind_ok, Hm, bind_ok, any_values_mask.
  destruct (cot mask || tot mask || validation mask);
    eexists; split; try reflexivity; split; reflexivity.
Qed.

(** One step of symbolic execution of a monadic body. *)
Ltac run_step :=
  first [ rewrite bind_ok | rewrite bind_raise
        | rewrite active_cot | rewrite active_tot | rewrite active_validation ].

(** After the model call, [process_query] is the three stages in order. *)
Lemma process_query_after_call self query context mask parameters payload draft :
  build_payload self query (active_modules_of mask) parameters = Ok payload ->
  api_call self payload = Ok draft ->
  process_query self query context (active_modules_of mask) parameters
  = run_stages self mask context stage_order draft.
Proof.
  intros Hp Hd. unfold process_query, stage_order, run_stages, stage_step, enabled, run_stage.
  rewrite Hp, bind_ok, Hd, bind_ok.
  repeat run_step.
  destruct (cot mask); [destruct (cot_process self draft context)|];
    repeat run_step; try reflexivity;
    (destruct (tot mask); [destruct (tot_explore self _ context)|]);
    repeat run_step; try reflexivity;
    (destruct (validation mask); [destruct (validation_validate self _ context)|]);
    repeat run_step; reflexivity.
Qed.

(** C8. Once the model has returned its draft, [process_query] is the
    stages ChainOfThought, TreeOfThought, ConsistencyValidation applied in
    that order: an enabled stage is its module run on the draft it receives
    and the context, a disabled stage hands the draft on unchanged, and
    with every stage disabled the answer is the draft itself. *)
Theorem stages_run_in_fixed_order (self : EnhancedProcessor) (query context : str)
    (mask : Mask) (parameters : gmap str num) (payload : Payload) (draft : str) :
  build_payload self query (active_modules_of mask) parameters = Ok payload ->
  api_call self payload = Ok draft ->
  process_query self query context (active_modules_of mask) parameters
  = run_stages self mask context stage_order draft
  /\ (forall s d, enabled mask s = true ->
        stage_step self mask context s d = run_stage self s d context)
  /\ (forall s d, enabled mask s = false -> stage_step self mask context s d = Ok d)
  /\ (cot mask = false -> tot mask = false -> validation mask = false ->
      process_query self query context (active_modules_of mask) parameters = Ok draft).
Proof.
  intros Hp Hd.
  pose proof (process_query_after_call self query context mask parameters payload draft
                Hp Hd) as E.
  split; [exact E | split; [|split]].
  - intros s d Hs. unfold stage_step. rewrite Hs. reflexivity.
  - intros s d Hs. unfold stage_step. rewrite Hs. reflexivity.
  - intros Hc Ht Hv. rewrite E.
    unfold stage_order, run_stages, stage_step, enabled.
    rewrite Hc, Ht, Hv. reflexivity.
Qed.

Lemma stages_run_in_fixed_order_witness :
  process_query Examples.demo_processor "what is due" "notes"
    (active_modules_of Examples.demo_mask) Examples.demo_parameters
  = run_stages Examples.demo_processor Examples.demo_mask "notes" stage_order "draft"
  /\ (forall s d, enabled Examples.demo_mask s = true ->
        stage_step Examples.demo_processor Examples.demo_mask "notes" s d
        = run_stage Examples.demo_processor s d "notes")
  /\ (forall s d, enabled Examples.demo_mask s = false ->
        stage_step Examples.demo_processor Examples.demo_mask "notes" s d = Ok d)
  /\ (cot Examples.demo_mask = false -> tot Examples.demo_mask = false ->
      validation Examples.demo_mask = false ->
      process_query Examples.demo_processor "what is due" "notes"
        (active_modules_of Examples.demo_mask) Examples.demo_parameters = Ok (py "draft")).
Proof.
  apply (stages_run_in_fixed_order Examples.demo_processor "what is due" "notes"
           Examples.demo_mask Examples.demo_parameters Examples.demo_payload "draft").
  - vm_compute. reflexivity.
  - reflexivity.
Defined.

(** The run above, evaluated: the two enabled stages in order. *)
Example demo_answer :
  process_query Examples.demo_processor "what is due" "notes"
    (active_modules_of Examples.demo_mask) Examples.demo_parameters
  = Ok (py "draft +tot +checked:notes").
Proof. vm_compute. reflexivity. Qed.

End ReasoningResults.

(** ** Generation parameters *)

Module ParameterResults.
Import ParameterValidator.

Lemma int_le_zero (m : Z) : num_le (Int m) (Int 0) = true <-> (m <= 0)%Z.
Proof.
  unfold num_le. simpl. rewrite Qle_bool_iff, <- Zle_Qle. reflexivity.
Qed.





(** In general the message lists the violated constraints, in the order
    of the checks, and a record that violates none is accepted. *)
Lemma validate_params_message (params : gmap str num) (t : num) (m : Z) :
  params !! ("temperature" : str) = Some t ->
  params !! ("max_length" : str) = Some (Int m) ->
  validate_params params
  = match (if num_le (Int 0) t && num_le t (Int 1) then []
           else [py "Temperature out of range (0-1)"])
          ++ (if (m <=? 0)%Z then [py "Invalid max length"] else []) with
    | [] => Ok tt
    | violations => Raise (InvalidParametersError (Text.join ", " violations))
    end.
Proof.
  intros Ht Hm. unfold validate_params, getitem.
  rewrite Ht, PyFacts.bind_ok, Hm, PyFacts.bind_ok.
  assert (E : num_le (Int m) (Int 0) = (m <=? 0)%Z).
  { destruct (m <=? 0)%Z eqn:Hz.
    - apply int_le_zero. lia.
    - destruct (num_le (Int m) (Int 0)) eqn:Hn; [|reflexivity].
      apply int_le_zero in Hn. lia. }
  rewrite E.
  destruct (num_le (Int 0) t && num_le t (Int 1)), (m <=? 0)%Z; reflexivity.
Qed.

End ParameterResults.

(** ** Directory validation *)

Module ValidationResults.
Import FileHandling PyFacts.

Section AnyOS.

Context `{OS World}.

(** What [validate_directory] does, check by check. *)
Lemma validate_directory_cases (w : World) (path : str) (require_write : bool) :
  validate_directory w path require_write =
    if negb (path_exists w path)
    then Raise (ValidationError ("Path does not exist: " ++ path)
                  (FileNotFoundError ("Path does not exist: " ++ path)))
    else if negb (path_isdir w path)
    then Raise (ValidationError ("Not a directory: " ++ path)
                  (NotADirectoryError ("Not a directory: " ++ path)))
    else if require_write && negb (access_W_OK w path)
    then Raise (ValidationError ("Write access denied: " ++ path)
                  (PermissionError ("Write access denied: " ++ path)))
    else if path_islink w path
    then Raise (ValidationError symlink_message (SecurityError symlink_message))
    else Ok true.
Proof.
  unfold validate_directory, checks.
  destruct (path_exists w path); [|reflexivity].
  destruct (path_isdir w path); [|reflexivity].
  destruct (require_write && negb (access_W_OK w path)); [reflexivity|].
  destruct (path_islink w path); reflexivity.
Qed.

(** C2, as the code has it.  A path that is a symbolic link is never
    accepted, with or without the write requirement: the call raises
    [ValidationError], which is the kind the caller observes, carrying the
    message and, as its cause, the exception of the check that failed.  That
    cause is the [SecurityError] of the symlink check when the target of the
    link exists, is a directory and passes the write check. *)
Theorem symlink_never_validated (w : World) (path : str) (require_write : bool) :
  path_islink w path = true ->
  (exists cause,
     validate_directory w path require_write
     = Raise (ValidationError (str_of_exn cause) cause)
     /\ kind_of cause ∈ [KFileNotFound; KNotADirectory; KPermission; KSecurity])
  /\ raised_kind (validate_directory w path require_write) = Some KValidation
  /\ (path_exists w path = true -> path_isdir w path = true ->
      (require_write = true -> access_W_OK w path = true) ->
      validate_directory w path require_write
      = Raise (ValidationError symlink_message (SecurityError symlink_message))).
Proof.
  intros Hlink. rewrite validate_directory_cases, Hlink.
  split; [|split].
  - destruct (path_exists w path); cbn [negb];
      [|exists (FileNotFoundError ("Path does not exist: " ++ path));
        split; [reflexivity | set_solver]].
    destruct (path_isdir w path); cbn [negb];
      [|exists (NotADirectoryError ("Not a directory: " ++ path));
        split; [reflexivity | set_solver]].
    destruct (require_write && negb (access_W_OK w path)).
    + exists (PermissionError ("Write access denied: " ++ path)).
      split; [reflexivity | set_solver].
    + exists (SecurityError symlink_message).
      split; [reflexivity | set_solver].
  - destruct (path_exists w path); cbn [negb]; [|reflexivity].
    destruct (path_isdir w path); cbn [negb]; [|reflexivity].
    destruct (require_write && negb (access_W_OK w path)); reflexivity.
  - intros -> -> Hw. cbn [negb].
    destruct require_write; [rewrite Hw by reflexivity|]; reflexivity.
Qed.

End AnyOS.

Lemma symlink_never_validated_witness :
  (exists cause,
     validate_directory Examples.demo_fs "/link-to-notes" true
     = Raise (ValidationError (str_of_exn cause) cause)
     /\ kind_of cause ∈ [KFileNotFound; KNotADirectory; KPermission; KSecurity])
  /\ raised_kind (validate_directory Examples.demo_fs "/link-to-notes" true)
     = Some KValidation
  /\ (path_exists Examples.demo_fs "/link-to-notes" = true ->
      path_isdir Examples.demo_fs "/link-to-notes" = true ->
      (true = true -> access_W_OK Examples.demo_fs "/link-to-notes" = true) ->
      validate_directory Examples.demo_fs "/link-to-notes" true
      = Raise (ValidationError symlink_message (SecurityError symlink_message))).
Proof.
  apply (symlink_never_validated (H := table_os) Examples.demo_fs "/link-to-notes" true).
  vm_compute. reflexivity.
Defined.

(** C2 fails as stated.  For a link to a writable directory the caller
    observes [ValidationError], not [SecurityError]; for a link whose
    target is missing, is a file, or is read-only, the failure is the one
    of the earlier check and no [SecurityError] is raised at all. *)
Lemma symlink_failure_is_not_security_error :
  path_islink Examples.demo_fs "/link-to-notes" = true
  /\ validate_directory Examples.demo_fs "/link-to-notes" true
     = Raise (ValidationError symlink_message (SecurityError symlink_message))
  /\ raised_kind (validate_directory Examples.demo_fs "/link-to-notes" true)
     <> Some KSecurity
  /\ path_islink Examples.demo_fs "/vault" = true
  /\ validate_directory Examples.demo_fs "/vault" true
     = Raise (ValidationError "Path does not exist: /vault"
                (FileNotFoundError "Path does not exist: /vault"))
  /\ path_islink Examples.demo_fs "/link-to-file" = true
  /\ validate_directory Examples.demo_fs "/link-to-file" false
     = Raise (ValidationError "Not a directory: /link-to-file"
                (NotADirectoryError "Not a directory: /link-to-file"))
  /\ path_islink Examples.demo_fs "/link-to-archive" = true
  /\ validate_directory Examples.demo_fs "/link-to-archive" true
     = Raise (ValidationError "Write access denied: /link-to-archive"
                (PermissionError "Write access denied: /link-to-archive")).
Proof.
  repeat split; try (vm_compute; reflexivity).
  vm_compute. discriminate.
Qed.

End ValidationResults.

(** ** Markdown output *)

Module OutputResults.
Import FileHandling PyFacts TextFacts.

(** The substitution of [write_markdown] keeps exactly the allowed
    characters. *)
Lemma unsafe_is_not_allowed (c : ascii) :
  class_matches unsafe_chars c = negb (allowed c).
Proof.
  unfold class_matches, unsafe_chars, allowed. simpl.
  destruct (isalnum c), (eqc c "_"), (eqc c "-"); reflexivity.
Qed.

Lemma re_sub_filter (s : str) : re_sub unsafe_chars [] s = List.filter allowed s.
Proof.
  unfold re_sub. induction s as [|c s IH]; [reflexivity|].
  cbn [flat_map]. rewrite unsafe_is_not_allowed, IH.
  cbn [List.filter]. destruct (allowed c); reflexivity.
Qed.

Lemma safe_filename_filter (filename : str) :
  safe_filename_of filename = take 255 (List.filter allowed filename).
Proof. unfold safe_filename_of. rewrite re_sub_filter. reflexivity. Qed.

Lemma allowed_not_sep (c : ascii) : allowed c = true -> Posixpath.is_sep c = false.
Proof.
  intros Ha. destruct (Posixpath.is_sep c) eqn:Hs; [|reflexivity].
  apply eqc_true in Hs. subst c. vm_compute in Ha. discriminate.
Qed.

Lemma safe_filename_allowed (filename : str) :
  Forall (fun c => allowed c = true) (safe_filename_of filename).
Proof.
  rewrite safe_filename_filter. apply Forall_take.
  apply Forall_forall. intros c Hc.
  apply list_elem_of_In, filter_In in Hc as [_ Hc]. exact Hc.
Qed.

Lemma safe_filename_length (filename : str) : length (safe_filename_of filename) <= 255.
Proof. rewrite safe_filename_filter, length_take. lia. Qed.

Lemma no_sep_app (a b : str) :
  existsb Posixpath.is_sep (a ++ b)
  = existsb Posixpath.is_sep a || existsb Posixpath.is_sep b.
Proof. apply existsb_app. Qed.

Lemma output_name_no_sep (filename : str) :
  existsb Posixpath.is_sep (safe_filename_of filename ++ ".md") = false.
Proof.
  rewrite no_sep_app. apply orb_false_iff. split; [|reflexivity].
  pose proof (safe_filename_allowed filename) as Hall.
  induction Hall as [|c s Hc _ IH]; [reflexivity|].
  simpl. rewrite (allowed_not_sep c Hc), IH. reflexivity.
Qed.

(** [basename] undoes [join] for a name without separators. *)
Lemma basename_no_sep (name : str) :
  existsb Posixpath.is_sep name = false -> Posixpath.basename name = name.
Proof. destruct name as [|c name]; [reflexivity|]. simpl. intros ->. reflexivity. Qed.

Lemma basename_after_sep (d name : str) :
  existsb Posixpath.is_sep name = false ->
  Posixpath.basename (d ++ "/"%char :: name) = name.
Proof.
  intros Hname. induction d as [|c d IH].
  - simpl. apply basename_no_sep, Hname.
  - change ((c :: d) ++ "/"%char :: name) with (c :: (d ++ "/"%char :: name)).
    cbn [Posixpath.basename].
    replace (existsb Posixpath.is_sep (c :: d ++ "/"%char :: name)) with true; [exact IH|].
    symmetry. cbn [existsb]. rewrite existsb_app. cbn [existsb].
    replace (Posixpath.is_sep "/") with true by reflexivity.
    rewrite !orb_true_r. reflexivity.
Qed.

Lemma basename_join (directory name : str) :
  existsb Posixpath.is_sep name = false ->
  Posixpath.basename (Posixpath.join directory name) = name.
Proof.
  intros Hname. unfold Posixpath.join.
  destruct (startswith "/" name) eqn:Hs.
  - apply basename_no_sep, Hname.
  - destruct (bool_decide (directory = [])) eqn:Hd; cbn [orb].
    + apply bool_decide_eq_true in Hd. subst. apply basename_no_sep, Hname.
    + destruct (endswith "/" directory) eqn:He.
      * apply endswith_spec in He as [t ->]. rewrite <- app_assoc.
        apply basename_after_sep, Hname.
      * apply basename_after_sep, Hname.
Qed.

(** [normpath] keeps the last component of such a path. *)
Lemma split_on_nonempty (sep : ascii) (s : str) : Posixpath.split_on sep s <> [].
Proof.
  destruct s as [|c s]; simpl; [discriminate|].
  destruct (eqc c sep); [discriminate|].
  destruct (Posixpath.split_on sep s); simpl; discriminate.
Qed.

Lemma split_on_no_sep (name : str) :
  existsb Posixpath.is_sep name = false -> Posixpath.split_on "/" name = [name].
Proof.
  induction name as [|c name IH]; [reflexivity|].
  cbn [existsb]. intros [Hc Hn]%orb_false_iff.
  cbn [Posixpath.split_on]. unfold Posixpath.is_sep in Hc. rewrite Hc, (IH Hn).
  reflexivity.
Qed.

Lemma split_on_app (a b : str) :
  Posixpath.split_on "/" (a ++ "/"%char :: b)
  = Posixpath.split_on "/" a ++ Posixpath.split_on "/" b.
Proof.
  induction a as [|c a IH]; [reflexivity|].
  change ((c :: a) ++ "/"%char :: b) with (c :: (a ++ "/"%char :: b)).
  cbn [Posixpath.split_on]. rewrite IH.
  destruct (eqc c "/"); [reflexivity|].
  pose proof (split_on_nonempty "/" a) as Hne.
  destruct (Posixpath.split_on "/" a); [congruence | reflexivity].
Qed.

Lemma join_snoc (sep : str) (parts : list str) (p : str) :
  Text.join sep (parts ++ [p])
  = match parts with
    | [] => p
    | _ => Text.join sep parts ++ sep ++ p
    end.
Proof.
  induction parts as [|q parts IH]; [reflexivity|].
  destruct parts as [|q' parts]; [reflexivity|].
  change ((q :: q' :: parts) ++ [p]) with (q :: ((q' :: parts) ++ [p])).
  rewrite join_cons by (cbn [app]; discriminate). rewrite IH.
  rewrite (join_cons sep q (q' :: parts)) by discriminate.
  rewrite <- !app_assoc. reflexivity.
Qed.

Lemma normpath_step_name (k : nat) (acc : list str) (name : str) :
  name <> [] -> name <> "." -> name <> ".." ->
  Posixpath.normpath_step k acc name = name :: acc.
Proof.
  intros H0 H1 H2. unfold Posixpath.normpath_step.
  rewrite (bool_decide_eq_false_2 _ H0), (bool_decide_eq_false_2 _ H1),
          (bool_decide_eq_false_2 _ H2).
  reflexivity.
Qed.

Lemma basename_slashes (k : nat) (name : str) :
  existsb Posixpath.is_sep name = false ->
  Posixpath.basename (concat (repeat (py "/") k) ++ name) = name.
Proof.
  intros Hname. destruct k as [|k]; [apply basename_no_sep, Hname|].
  replace (concat (repeat (py "/") (S k)) ++ name)
    with (concat (repeat (py "/") k) ++ "/"%char :: name).
  - apply basename_after_sep, Hname.
  - induction k as [|k IH]; [reflexivity|].
    change (repeat (py "/") (S k)) with (py "/" :: repeat (py "/") k).
    change (repeat (py "/") (S (S k))) with (py "/" :: repeat (py "/") (S k)).
    cbn [concat]. rewrite <- !app_assoc. f_equal. exact IH.
Qed.

Lemma basename_normpath (p name : str) (comps : list str) :
  existsb Posixpath.is_sep name = false ->
  name <> [] -> name <> "." -> name <> ".." ->
  Posixpath.split_on "/" p = comps ++ [name] ->
  Posixpath.basename (Posixpath.normpath p) = name.
Proof.
  intros Hsep H0 H1 H2 Hsplit. unfold Posixpath.normpath.
  destruct (bool_decide (p = [])) eqn:Hp.
  { apply bool_decide_eq_true in Hp. subst p. simpl in Hsplit.
    destruct comps as [|? [|? ?]]; simpl in Hsplit; congruence. }
  rewrite Hsplit, fold_left_app. cbn [fold_left].
  set (k := if startswith "/" p
            then if startswith "//" p && negb (startswith "///" p) then 2 else 1
            else 0).
  rewrite normpath_step_name by assumption.
  cbn [rev]. rewrite join_snoc.
  set (acc := rev (fold_left (Posixpath.normpath_step k) comps [])).
  assert (E : forall q : str, q <> [] ->
            (if bool_decide (q = []) then py "." else q) = q).
  { intros q Hq. rewrite bool_decide_eq_false_2 by exact Hq. reflexivity. }
  destruct acc as [|c0 acc0].
  - rewrite E.
    + apply basename_slashes, Hsep.
    + intros Hnil. apply app_eq_nil in Hnil as [_ Hnil]. congruence.
  - rewrite E.
    + rewrite app_assoc. exact (basename_after_sep _ name Hsep).
    + intros Hnil. apply (f_equal (@length ascii)) in Hnil.
      rewrite !length_app in Hnil. simpl in Hnil.
      destruct name; [congruence | simpl in Hnil; lia].
Qed.

Lemma split_on_join (directory name : str) :
  existsb Posixpath.is_sep name = false ->
  exists comps, Posixpath.split_on "/" (Posixpath.join directory name) = comps ++ [name].
Proof.
  intros Hname. unfold Posixpath.join.
  destruct (startswith "/" name) eqn:Hs.
  - exists []. apply split_on_no_sep, Hname.
  - destruct (bool_decide (directory = [])) eqn:Hd; cbn [orb].
    + apply bool_decide_eq_true in Hd. subst. exists []. apply split_on_no_sep, Hname.
    + destruct (endswith "/" directory) eqn:He.
      * apply endswith_spec in He as [t ->]. rewrite <- app_assoc.
        exists (Posixpath.split_on "/" t).
        change (py "/" ++ name) with ("/"%char :: name).
        rewrite split_on_app, (split_on_no_sep name Hname). reflexivity.
      * exists (Posixpath.split_on "/" directory).
        change (py "/" ++ name) with ("/"%char :: name).
        rewrite split_on_app, (split_on_no_sep name Hname). reflexivity.
Qed.

Lemma output_name_proper (filename : str) :
  safe_filename_of filename ++ ".md" <> []
  /\ safe_filename_of filename ++ ".md" <> "."
  /\ safe_filename_of filename ++ ".md" <> "..".
Proof.
  assert (L : 3 <= length (safe_filename_of filename ++ ".md")).
  { rewrite length_app. simpl. lia. }
  repeat split; intros E; rewrite E in L; simpl in L; lia.
Qed.

Lemma validate_directory_true `{OS World} (w : World) (path : str) (rw b : bool) :
  validate_directory w path rw = Ok b -> b = true.
Proof.
  rewrite ValidationResults.validate_directory_cases.
  destruct (negb (path_exists w path)); [discriminate|].
  destruct (negb (path_isdir w path)); [discriminate|].
  destruct (rw && negb (access_W_OK w path)); [discriminate|].
  destruct (path_islink w path); [discriminate|].
  intros E. injection E as <-. reflexivity.
Qed.

(** C9. The file is written at the directory joined with a name that is
    the requested filename reduced to its word characters, hyphens and
    underscores, cut to 255 characters, followed by ".md": that name is the
    basename of the path written and of the normalised path returned, and no
    character of it before the extension lies outside the class.  The call
    returns exactly when the directory validates and the file can be opened
    for writing. *)
Theorem written_file_name `{OS World} (w : World) (content directory filename : str) :
  let stem := take 255 (List.filter allowed filename) in
  let full_path := Posixpath.join directory (stem ++ ".md") in
  Posixpath.basename full_path = stem ++ ".md"
  /\ Posixpath.basename (Posixpath.normpath full_path) = stem ++ ".md"
  /\ Forall (fun c => allowed c = true) stem
  /\ length stem <= 255
  /\ (forall returned w',
        write_markdown w content directory filename = Ok (returned, w')
        <-> validate_directory w directory true = Ok true
            /\ open_write w full_path content = Ok w'
            /\ returned = Posixpath.normpath full_path).
Proof.
  intros stem full_path.
  assert (Es : stem = safe_filename_of filename)
    by (symmetry; apply safe_filename_filter).
  pose proof (output_name_no_sep filename) as Hsep.
  pose proof (output_name_proper filename) as [H0 [H1 H2]].
  rewrite <- Es in Hsep, H0, H1, H2.
  split; [|split; [|split; [|split]]].
  - apply basename_join, Hsep.
  - destruct (split_on_join directory (stem ++ ".md") Hsep) as [comps Hc].
    apply (basename_normpath _ _ comps); assumption.
  - rewrite Es. apply safe_filename_allowed.
  - rewrite Es. apply safe_filename_length.
  - intros returned w'. unfold write_markdown.
    rewrite re_sub_filter. fold stem. fold full_path.
    destruct (validate_directory w directory true) as [b|e] eqn:Hv.
    + apply validate_directory_true in Hv as ->. rewrite bind_ok.
      destruct (open_write w full_path content) as [w1|e]; [rewrite bind_ok | rewrite bind_raise].
      * split.
        -- intros E. injection E as <- <-. auto.
        -- intros [_ [E ->]]. injection E as ->. reflexivity.
      * split; [discriminate | intros [_ [E _]]; discriminate].
    + rewrite bind_raise. split; [discriminate | intros [E _]; discriminate].
Qed.

(** A run on the example file system: the unsafe characters of the
    requested name are gone and the note is in place. *)
Example write_markdown_demo :
  match write_markdown Examples.demo_fs "# Q3" "/notes" "Q3 plan: draft/v2.md" with
  | Ok (returned, fs) =>
      returned = "/notes/Q3plandraftv2md.md"
      /\ fs !! returned = Some (Regular true "# Q3")
      /\ fs !! ("/todo.md" : str) = Some (Regular true "call back")
  | Raise _ => False
  end.
Proof. vm_compute. repeat split; reflexivity. Qed.

Example write_markdown_refuses_link :
  write_markdown Examples.demo_fs "# Q3" "/link-to-notes" "plan"
  = Raise (ValidationError symlink_message (SecurityError symlink_message)).
Proof. vm_compute. reflexivity. Qed.

End OutputResults.

(** ** Instruction input *)

Module UpdaterResults.
Import InstructionUpdater TextFacts.

(** Trimming forgets a trailing whitespace character. *)
Lemma trimStart_all_space (s : str) :
  forallb js_isspace s = true -> trimStart s = [].
Proof.
  induction s as [|c s IH]; [reflexivity|].
  simpl. intros [Hc Hs]%andb_true_iff. rewrite Hc. apply IH, Hs.
Qed.

Lemma trimStart_snoc (s : str) (c : ascii) :
  js_isspace c = true ->
  trimStart (s ++ [c]) = if forallb js_isspace s then [] else trimStart s ++ [c].
Proof.
  intros Hc. induction s as [|a s IH]; simpl.
  - rewrite Hc. reflexivity.
  - destruct (js_isspace a); [exact IH | reflexivity].
Qed.

Lemma trimEnd_snoc (s : str) (c : ascii) :
  js_isspace c = true -> trimEnd (s ++ [c]) = trimEnd s.
Proof.
  intros Hc. unfold trimEnd. rewrite rev_app_distr. simpl. rewrite Hc. reflexivity.
Qed.

Lemma trim_snoc (s : str) (c : ascii) :
  js_isspace c = true -> trim (s ++ [c]) = trim s.
Proof.
  intros Hc. unfold trim. rewrite (trimStart_snoc s c Hc).
  destruct (forallb js_isspace s) eqn:Hs.
  - rewrite (trimStart_all_space s Hs). reflexivity.
  - apply trimEnd_snoc, Hc.
Qed.

Lemma accumulated_join (lines : list str) :
  lines <> [] -> accumulated lines = Text.join line_feed lines ++ line_feed.
Proof.
  induction lines as [|l lines IH]; [congruence|]. intros _.
  destruct lines as [|l' lines].
  { unfold accumulated. cbn [map concat Text.join]. rewrite app_nil_r. reflexivity. }
  rewrite join_cons by discriminate.
  change (accumulated (l :: l' :: lines))
    with ((l ++ line_feed) ++ accumulated (l' :: lines)).
  rewrite IH by discriminate. rewrite <- !app_assoc. reflexivity.
Qed.

Lemma trim_accumulated (lines : list str) :
  trim (accumulated lines) = trim (Text.join line_feed lines).
Proof.
  destruct lines as [|l lines]; [reflexivity|].
  rewrite accumulated_join by discriminate. apply trim_snoc. reflexivity.
Qed.

(** The run of the event loop. *)
Lemma run_lines (lines : list str) (st : state) :
  closed st = false ->
  fold_left dispatch (map Line lines) st
  = {| newInstructions := newInstructions st ++ accumulated lines;
       closed := false; settled := settled st; console := console st |}.
Proof.
  revert st. induction lines as [|l lines IH]; intros st Hc.
  - change (accumulated []) with (@nil ascii). rewrite app_nil_r.
    destruct st; simpl in *; congruence.
  - cbn [map fold_left]. unfold dispatch at 2. rewrite Hc.
    rewrite IH by exact Hc. unfold on_line. cbn [newInstructions settled console].
    change (accumulated (l :: lines)) with ((l ++ line_feed) ++ accumulated lines).
    rewrite <- !app_assoc. reflexivity.
Qed.

Lemma run_closed (events : list event) (st : state) :
  closed st = true -> fold_left dispatch events st = st.
Proof.
  intros Hc. induction events as [|ev events IH]; [reflexivity|].
  cbn [fold_left]. unfold dispatch at 2. rewrite Hc. exact IH.
Qed.

Lemma close_resolves (st : state) :
  closed st = false -> settled st = Pending ->
  closed (rl_close st) = true
  /\ settled (rl_close st) = Resolved (trim (newInstructions st)).
Proof.
  intros Hc Hp. unfold rl_close. rewrite Hc.
  unfold on_close, resolve. cbn. rewrite Hp. cbn. split; reflexivity.
Qed.

Lemma sigint_resolves (st : state) :
  closed st = false -> settled st = Pending ->
  closed (on_sigint st) = true
  /\ settled (on_sigint st) = Resolved (trim (newInstructions st)).
Proof.
  intros Hc Hp. unfold on_sigint.
  apply (close_resolves (console_log _ st)); assumption.
Qed.

Lemma run_until (terminator : event) (lines : list str) (rest : list event) :
  terminator = EndOfInput \/ terminator = Sigint ->
  updateInstructions (map Line lines ++ terminator :: rest)
  = Resolved (trim (Text.join line_feed lines)).
Proof.
  intros Ht. unfold updateInstructions, run.
  rewrite fold_left_app, run_lines by reflexivity.
  cbn [fold_left].
  set (st := {| newInstructions := newInstructions initial ++ accumulated lines;
                closed := false; settled := settled initial;
                console := console initial |}).
  assert (H : closed (dispatch st terminator) = true
              /\ settled (dispatch st terminator) = Resolved (trim (accumulated lines))).
  { unfold dispatch. change (closed st) with false. cbn match.
    destruct Ht as [-> | ->].
    - apply (close_resolves st); reflexivity.
    - apply (sigint_resolves st); reflexivity. }
  destruct H as [Hc Hs].
  rewrite (run_closed rest _ Hc), Hs, trim_accumulated. reflexivity.
Qed.

(** No listener rejects, so the promise is never rejected. *)
Lemma dispatch_not_rejected (st : state) (ev : event) :
  (forall reason, settled st <> Rejected reason) ->
  forall reason, settled (dispatch st ev) <> Rejected reason.
Proof.
  intros Hst reason. unfold dispatch.
  destruct (closed st) eqn:Hc; [apply Hst|].
  assert (Hclose : forall st', (forall r, settled st' <> Rejected r) ->
                    settled (rl_close st') <> Rejected reason).
  { intros st' Hst'. unfold rl_close.
    destruct (closed st'); [apply Hst'|].
    unfold on_close, resolve. cbn.
    destruct (settled st') eqn:E; cbn; try discriminate.
    exfalso. eapply Hst'. reflexivity. }
  destruct ev as [line| |].
  - apply Hst.
  - apply Hclose, Hst.
  - unfold on_sigint. apply Hclose. intros r. apply Hst.
Qed.

Lemma run_not_rejected (events : list event) (reason : str) :
  updateInstructions events <> Rejected reason.
Proof.
  unfold updateInstructions, run.
  assert (G : forall st, (forall r, settled st <> Rejected r) ->
              forall r, settled (fold_left dispatch events st) <> Rejected r).
  { induction events as [|ev events IH]; intros st Hst; [exact Hst|].
    cbn [fold_left]. apply IH, dispatch_not_rejected, Hst. }
  apply G. intros r. discriminate.
Qed.

(** C10. Whatever lines are entered, and whether the input then ends or
    is interrupted, the promise resolves with those lines joined by line
    feeds and trimmed; what follows the close changes nothing; and on no
    input at all is the promise rejected. *)
Theorem updateInstructions_resolves :
  (forall lines rest,
     updateInstructions (map Line lines ++ EndOfInput :: rest)
     = Resolved (trim (Text.join line_feed lines)))
  /\ (forall lines rest,
        updateInstructions (map Line lines ++ Sigint :: rest)
        = Resolved (trim (Text.join line_feed lines)))
  /\ (forall events reason, updateInstructions events <> Rejected reason).
Proof.
  split; [|split].
  - intros lines rest. apply run_until. left. reflexivity.
  - intros lines rest. apply run_until. right. reflexivity.
  - apply run_not_rejected.
Qed.

(** An interrupted session: the two lines entered so far are kept, the
    line after the interrupt is not. *)
Example interrupted_session :
  updateInstructions [Line "  be brief"; Line "cite sources "; Sigint; Line "ignored"]
  = Resolved ("be brief" ++ line_feed ++ "cite sources").
Proof. reflexivity. Qed.

End UpdaterResults.

(** ** Further properties of context selection *)

Module ContextExtras.
Import Retrieval TextFacts ContextResults.

(** Lower-casing keeps whitespace in place, so it keeps the words apart. *)
Lemma isspace_lower_char (c : ascii) : isspace (lower_char c) = isspace c.
Proof. destruct c as [[] [] [] [] [] [] [] []]; reflexivity. Qed.

Lemma word_starts_lower (after_space : bool) (s : str) :
  word_starts after_space (lower s) = word_starts after_space s.
Proof.
  revert after_space. induction s as [|c s IH]; intros b; [reflexivity|].
  cbn [lower map word_starts]. fold (lower s).
  rewrite isspace_lower_char, !IH. reflexivity.
Qed.

Lemma word_count_lower (s : str) : word_count (lower s) = word_count s.
Proof. apply word_starts_lower. Qed.

Lemma join_empty (sep : str) (parts : list str) :
  sep <> [] -> Text.join sep parts = [] -> parts = [] \/ parts = [[]].
Proof.
  intros Hsep E. destruct parts as [|p [|q parts]].
  - left. reflexivity.
  - right. simpl in E. subst. reflexivity.
  - exfalso. rewrite join_cons in E by discriminate.
    apply app_eq_nil in E as [_ E]. apply app_eq_nil in E as [E _]. congruence.
Qed.

(** The text [get_context] returns once some document was found. *)
Lemma get_context_some (query : str) (retriever : Retriever) :
  get_relevant_documents retriever query <> [] ->
  get_context query retriever
  = Text.join blank_line
      (map page_content
         (if (length (split query) <? 5) || contains "summarize" (lower query)
          then get_relevant_documents retriever query
          else take 3 (get_relevant_documents retriever query))).
Proof.
  intros Hne. unfold get_context.
  rewrite bool_decide_eq_false_2 by exact Hne.
  destruct ((length (split query) <? 5) || contains "summarize" (lower query));
    reflexivity.
Qed.

(** X1. With one, two or three documents retrieved the query's shape
    plays no part: the result is the text of all of them. *)
Theorem few_documents_all_returned (query : str) (retriever : Retriever) :
  get_relevant_documents retriever query <> [] ->
  length (get_relevant_documents retriever query) <= 3 ->
  get_context query retriever
  = Text.join blank_line (map page_content (get_relevant_documents retriever query)).
Proof.
  intros Hne Hlen. rewrite (get_context_some _ _ Hne).
  rewrite take_ge by exact Hlen.
  destruct ((length (split query) <? 5) || contains "summarize" (lower query));
    reflexivity.
Qed.

Lemma few_documents_all_returned_witness :
  get_context "what do the meeting minutes say about the budget"
    Examples.minutes_retriever
  = Text.join blank_line
      (map page_content
         (get_relevant_documents Examples.minutes_retriever
            "what do the meeting minutes say about the budget")).
Proof.
  apply (few_documents_all_returned
           "what do the meeting minutes say about the budget" Examples.minutes_retriever).
  - simpl. discriminate.
  - simpl. lia.
Defined.

(** X2. Letter case does not matter to the choice between the branches:
    two queries with the same lower-case form, for which the same documents
    are retrieved, get the same context. *)
Theorem context_ignores_case (query1 query2 : str) (retriever : Retriever) :
  lower query1 = lower query2 ->
  get_relevant_documents retriever query1 = get_relevant_documents retriever query2 ->
  get_context query1 retriever = get_context query2 retriever.
Proof.
  intros Hlow Hdocs. unfold get_context.
  rewrite Hdocs, Hlow, !length_split.
  rewrite <- (word_count_lower query1), <- (word_count_lower query2), Hlow.
  reflexivity.
Qed.

Lemma context_ignores_case_witness :
  get_context "SUMMARIZE every entry of the project log" Examples.log_retriever
  = get_context "summarize every entry of the project log" Examples.log_retriever.
Proof.
  apply (context_ignores_case "SUMMARIZE every entry of the project log"
           "summarize every entry of the project log" Examples.log_retriever);
    reflexivity.
Defined.

(** X3. The result is the empty text in one case only: exactly one
    document was retrieved and its text is empty. *)
Theorem empty_context_only_from_empty_chunk (query : str) (retriever : Retriever) :
  get_context query retriever = []
  <-> exists d, get_relevant_documents retriever query = [d] /\ page_content d = [].
Proof.
  split.
  - intros E.
    destruct (get_relevant_documents retriever query) as [|d docs] eqn:Hdocs.
    { rewrite get_context_none in E by exact Hdocs. discriminate. }
    rewrite get_context_some in E by (rewrite Hdocs; discriminate).
    rewrite Hdocs in E.
    apply join_empty in E; [|discriminate].
    destruct E as [E | E].
    + destruct ((length (split query) <? 5) || contains "summarize" (lower query));
        discriminate.
    + exists d.
      destruct ((length (split query) <? 5) || contains "summarize" (lower query)),
               docs as [|d' docs];
        simpl in E; try discriminate; injection E as E; auto.
  - intros [d [Hdocs Hd]].
    rewrite get_context_some by (rewrite Hdocs; discriminate).
    rewrite Hdocs.
    destruct ((length (split query) <? 5) || contains "summarize" (lower query));
      simpl; exact Hd.
Qed.

End ContextExtras.

(** ** Further properties of the hybrid merge *)

Module HybridExtras.
Import Retrieval RetrievalFacts.







End HybridExtras.

(** ** Further properties of the scan *)

Module IndexingExtras.
Import Indexing Listing TextFacts IndexingResults.

Lemma endswith_join (suffix a b : str) :
  endswith suffix b = true -> endswith suffix (Posixpath.join a b) = true.
Proof.
  intros [t ->]%endswith_spec. apply endswith_spec. unfold Posixpath.join.
  destruct (startswith "/" (t ++ suffix)); [exists t; reflexivity|].
  destruct (bool_decide (a = []) || endswith "/" a).
  - exists (a ++ t). rewrite app_assoc. reflexivity.
  - exists (a ++ "/" ++ t). rewrite <- !app_assoc. reflexivity.
Qed.

Lemma is_name_not_absolute (name : str) :
  is_name name = true -> startswith "/" name = false.
Proof.
  unfold is_name. intros [_ Hsep]%andb_true_iff.
  apply negb_true_iff in Hsep.
  destruct name as [|c name]; [reflexivity|].
  simpl in Hsep. apply orb_false_iff in Hsep as [Hc _].
  unfold Posixpath.is_sep in Hc.
  change (startswith "/" (c :: name)) with (eqc "/" c && true).
  destruct (eqc "/" c) eqn:E; [|reflexivity].
  apply eqc_true in E. subst c. rewrite eqc_refl in Hc. discriminate.
Qed.

(** Joining a name to a directory extends the directory's path. *)
Lemma join_extends (a name : str) :
  is_name name = true -> exists rest, Posixpath.join a name = a ++ rest.
Proof.
  intros Hname. unfold Posixpath.join.
  rewrite (is_name_not_absolute name Hname).
  destruct (bool_decide (a = []) || endswith "/" a); eexists; reflexivity.
Qed.

Lemma names_ok_files files subdirs name :
  names_ok (Dir files subdirs) = true -> name ∈ files -> is_name name = true.
Proof.
  cbn [names_ok]. intros [Hf _]%andb_true_iff Hin.
  rewrite forallb_forall in Hf. apply Hf, list_elem_of_In, Hin.
Qed.

Lemma names_ok_subdir files subdirs sub d :
  names_ok (Dir files subdirs) = true -> (sub, d) ∈ subdirs ->
  is_name sub = true /\ names_ok d = true.
Proof.
  cbn [names_ok]. intros [_ Hs]%andb_true_iff Hin.
  rewrite forallb_forall in Hs.
  apply list_elem_of_In, Hs, andb_true_iff in Hin. exact Hin.
Qed.

Lemma file_under_extends top d dirpath name :
  file_under top d dirpath name -> names_ok d = true ->
  is_name name = true /\ exists rest, dirpath = top ++ rest.
Proof.
  induction 1 as [top fs subdirs name Hname
                 | top fs subdirs sub d dirpath name Hsub _ IH]; intros Hok.
  - split; [eapply names_ok_files; eassumption|].
    exists []. rewrite app_nil_r. reflexivity.
  - destruct (names_ok_subdir _ _ _ _ Hok Hsub) as [Hn Hd].
    destruct (IH Hd) as [Hname [rest ->]].
    split; [exact Hname|].
    destruct (join_extends top sub Hn) as [r ->].
    exists (r ++ rest). rewrite app_assoc. reflexivity.
Qed.

Section Scan.

Variable getmtime : str -> num.

(** Membership in the result of the scan. *)
Lemma get_modified_files_elem (root : str) (tree : dir) (since : num) (path : str) :
  path ∈ get_modified_files getmtime root tree since
  <-> exists dirpath name,
        file_under root tree dirpath name
        /\ endswith ".md" name = true
        /\ path = Posixpath.join dirpath name
        /\ num_gt (getmtime path) since = true.
Proof.
  unfold get_modified_files. rewrite list_elem_of_In, in_flat_map. split.
  - intros [[[dirpath dirs] files] [Hstep Hin]].
    apply list_elem_of_In in Hstep, Hin.
    apply scan_directory_elem in Hin as [name [Hname [Hmd [Hp Hgt]]]].
    exists dirpath, name. split; [|auto].
    eapply walk_files; eassumption.
  - intros [dirpath [name [Hunder [Hmd [Hp Hgt]]]]].
    apply file_under_walk in Hunder as [dirs [files [Hstep Hname]]].
    exists (dirpath, dirs, files). split; [apply list_elem_of_In; exact Hstep|].
    apply list_elem_of_In, scan_directory_elem. exists name. auto.
Qed.

(** X7. Every path the scan returns ends in ".md" and, the names of the
    tree being names, extends the path of the knowledge base directory. *)
Theorem scan_paths_are_markdown_under_root (root : str) (tree : dir) (since : num)
    (path : str) :
  names_ok tree = true ->
  path ∈ get_modified_files getmtime root tree since ->
  endswith ".md" path = true /\ exists rest, path = root ++ rest.
Proof.
  intros Hok [dirpath [name [Hunder [Hmd [-> _]]]]]%get_modified_files_elem.
  split; [apply endswith_join, Hmd|].
  destruct (file_under_extends _ _ _ _ Hunder Hok) as [Hname [rest ->]].
  destruct (join_extends (root ++ rest) name Hname) as [r ->].
  exists (rest ++ r). rewrite app_assoc. reflexivity.
Qed.

(** Order on the numbers the scan compares. *)
Lemma num_gt_le_trans (m s1 s2 : num) :
  num_le s1 s2 = true -> num_gt m s2 = true -> num_gt m s1 = true.
Proof.
  unfold num_le, num_gt.
  destruct (value m) as [x|], (value s1) as [y|], (value s2) as [z|];
    try discriminate.
  destruct x as [|p|], y as [|q|], z as [|r|]; simpl; try discriminate; try reflexivity.
  intros Hle Hgt. apply negb_true_iff in Hgt. apply negb_true_iff.
  destruct (Qle_bool p q) eqn:Hpq; [|reflexivity].
  apply Qle_bool_iff in Hle, Hpq.
  assert (Hpr : Qle_bool p r = true) by (apply Qle_bool_iff; eapply Qle_trans; eassumption).
  congruence.
Qed.

(** X8. A later last-index time never adds a path: what the scan returns
    for the later time it also returns for the earlier one. *)
Theorem scan_shrinks_as_time_advances (root : str) (tree : dir)
    (earlier later : num) (path : str) :
  num_le earlier later = true ->
  path ∈ get_modified_files getmtime root tree later ->
  path ∈ get_modified_files getmtime root tree earlier.
Proof.
  intros Hle [dirpath [name [Hu [Hmd [Hp Hgt]]]]]%get_modified_files_elem.
  apply get_modified_files_elem. exists dirpath, name.
  repeat split; try assumption.
  eapply num_gt_le_trans; eassumption.
Qed.

Lemma flat_map_flat_map {A B C : Type} (f : B -> list C) (g : A -> list B) (l : list A) :
  flat_map f (flat_map g l) = flat_map (fun x => flat_map f (g x)) l.
Proof.
  induction l as [|x l IH]; [reflexivity|].
  simpl. rewrite flat_map_app, IH. reflexivity.
Qed.

(** X9. The scan of a directory is the scan of its own files, in listing
    order, followed by the scans of its subdirectories, each under the
    joined path and in listing order. *)
Theorem scan_of_directory (top : str) (files : list str) (subdirs : list (str * dir))
    (since : num) :
  get_modified_files getmtime top (Dir files subdirs) since
  = scan_directory getmtime since top files
    ++ flat_map (fun s => get_modified_files getmtime (Posixpath.join top (fst s))
                            (snd s) since) subdirs.
Proof.
  unfold get_modified_files. cbn [walk flat_map].
  f_equal. apply flat_map_flat_map.
Qed.

End Scan.

Lemma scan_paths_are_markdown_under_root_witness :
  endswith ".md" (py "/kb/projects/weavr.md") = true
  /\ exists rest, py "/kb/projects/weavr.md" = py "/kb" ++ rest.
Proof.
  apply (scan_paths_are_markdown_under_root Examples.demo_mtime "/kb"
           Examples.demo_tree (Float (1709251200 # 1)) "/kb/projects/weavr.md").
  - reflexivity.
  - apply list_elem_of_In. vm_compute. right. left. reflexivity.
Defined.

Lemma scan_shrinks_as_time_advances_witness :
  py "/kb/todo.md" ∈ get_modified_files Examples.demo_mtime "/kb" Examples.demo_tree (Int 0).
Proof.
  apply (scan_shrinks_as_time_advances Examples.demo_mtime "/kb" Examples.demo_tree
           (Int 0) (Float (1709251200 # 1)) "/kb/todo.md").
  - reflexivity.
  - apply list_elem_of_In. vm_compute. left. reflexivity.
Defined.

End IndexingExtras.

(** ** Further properties of the reasoning pipeline *)

Module ReasoningExtras.
Import ReasoningEngine PyFacts ReasoningResults.

(** [process_query] on the dictionary of a mask: the request, the model
    call, then the stages. *)
Lemma process_query_staged (self : EnhancedProcessor) (query context : str)
    (mask : Mask) (parameters : gmap str num) :
  process_query self query context (active_modules_of mask) parameters
  = (payload ← build_payload self query (active_modules_of mask) parameters;
     draft ← api_call self payload;
     run_stages self mask context stage_order draft).
Proof.
  destruct (build_payload self query (active_modules_of mask) parameters)
    as [payload|e] eqn:Hp.
  - rewrite bind_ok.
    destruct (api_call self payload) as [draft|e] eqn:Hd.
    + rewrite bind_ok. apply (process_query_after_call _ _ _ _ _ payload); assumption.
    + rewrite bind_raise. unfold process_query. rewrite Hp, bind_ok, Hd. reflexivity.
  - rewrite bind_raise. unfold process_query. rewrite Hp. reflexivity.
Qed.

Lemma any_values_true (d : gmap str bool) :
  any_values d = true <-> exists k, d !! k = Some true.
Proof.
  unfold any_values. rewrite bool_decide_eq_true. unfold map_Exists. split.
  - intros [k [v [Hk ->]]]. exists k. exact Hk.
  - intros [k Hk]. exists k, true. split; [exact Hk | reflexivity].
Qed.

(** X10. The request that goes to the model: the query as prompt, the
    temperature and the length of the parameters, 0.9 and 1.1 for a top_p or
    repetition penalty that was not given, and the enhanced model exactly
    when some entry of [active_modules] is true (the base model otherwise). *)
Theorem request_shaping (self : EnhancedProcessor) (query : str)
    (active_modules : gmap str bool) (parameters : gmap str num) (t m : num) :
  parameters !! ("temperature" : str) = Some t ->
  parameters !! ("max_length" : str) = Some m ->
  exists payload,
    build_payload self query active_modules parameters = Ok payload
    /\ prompt payload = query
    /\ temperature payload = t
    /\ max_tokens payload = m
    /\ top_p payload = default (Float (9 # 10)) (parameters !! ("top_p" : str))
    /\ repetition_penalty payload
       = default (Float (11 # 10)) (parameters !! ("repetition_penalty" : str))
    /\ ((exists k, active_modules !! k = Some true) ->
        model payload = enhanced_mode (mixtral_config self))
    /\ ((forall k, active_modules !! k <> Some true) ->
        model payload = base_model (mixtral_config self)).
Proof.
  intros Ht Hm. unfold build_payload, getitem.
  rewrite Ht, bind_ok, Hm, bind_ok.
  assert (Dp : forall key dflt, get_default parameters key dflt
                                = default dflt (parameters !! key)).
  { intros key dflt. unfold get_default. destruct (parameters !! key); reflexivity. }
  destruct (any_values active_modules) eqn:Hany.
  - eexists. split; [reflexivity|]. cbn [prompt temperature max_tokens top_p
                                          repetition_penalty model].
    rewrite !Dp. repeat split.
    intros Hnone. apply any_values_true in Hany as [k Hk]. destruct (Hnone k Hk).
  - eexists. split; [reflexivity|]. cbn [prompt temperature max_tokens top_p
                                          repetition_penalty model].
    rewrite !Dp. repeat split.
    intros Hsome. apply any_values_true in Hsome. congruence.
Qed.

(** X11. A dictionary of modules that lacks a stage does not count the
    stage as disabled: the request fails with [KeyError] for the first stage
    that is missing, after the model has been called and has answered. *)
Theorem missing_stage_fails_after_call (self : EnhancedProcessor) (query context : str)
    (active_modules : gmap str bool) (parameters : gmap str num)
    (payload : Payload) (draft : str) :
  build_payload self query active_modules parameters = Ok payload ->
  api_call self payload = Ok draft ->
  (active_modules !! ("cot" : str) = None ->
   process_query self query context active_modules parameters = Raise (KeyError "cot"))
  /\ (active_modules !! ("cot" : str) = Some false ->
      active_modules !! ("tot" : str) = None ->
      process_query self query context active_modules parameters = Raise (KeyError "tot"))
  /\ (active_modules !! ("cot" : str) = Some false ->
      active_modules !! ("tot" : str) = Some false ->
      active_modules !! ("validation" : str) = None ->
      process_query self query context active_modules parameters
      = Raise (KeyError "validation")).
Proof.
  intros Hp Hd. unfold process_query, getitem. rewrite Hp, bind_ok, Hd, bind_ok.
  split; [|split].
  - intros ->. reflexivity.
  - intros -> ->. reflexivity.
  - intros -> -> ->. reflexivity.
Qed.

Lemma run_stages_app self mask context (pre post : list Stage) (draft : str) :
  run_stages self mask context (pre ++ post) draft
  = (d ← run_stages self mask context pre draft;
     run_stages self mask context post d).
Proof.
  revert draft. induction pre as [|s pre IH]; intros draft; [reflexivity|].
  cbn [app run_stages].
  destruct (stage_step self mask context s draft) as [d|e]; [|reflexivity].
  rewrite !bind_ok. apply IH.
Qed.

(** X12. Failures are final.  If the model call raises, or an enabled
    stage raises on the draft the stages before it produced, then
    [process_query] raises that exception: there is no second call and the
    later stages do not run. *)
Theorem failures_propagate (self : EnhancedProcessor) (query context : str)
    (mask : Mask) (parameters : gmap str num) (payload : Payload) (e : exn) :
  build_payload self query (active_modules_of mask) parameters = Ok payload ->
  (api_call self payload = Raise e ->
   process_query self query context (active_modules_of mask) parameters = Raise e)
  /\ (forall draft before s later d,
        api_call self payload = Ok draft ->
        stage_order = before ++ s :: later ->
        run_stages self mask context before draft = Ok d ->
        enabled mask s = true ->
        run_stage self s d context = Raise e ->
        process_query self query context (active_modules_of mask) parameters = Raise e).
Proof.
  intros Hp. rewrite process_query_staged, Hp, bind_ok. split.
  - intros ->. reflexivity.
  - intros draft before s later d Hd Horder Hbefore Hs Hraise.
    rewrite Hd, bind_ok, Horder, run_stages_app, Hbefore, bind_ok.
    cbn [run_stages]. unfold stage_step. rewrite Hs, Hraise. reflexivity.
Qed.

Lemma run_stages_agree (self1 self2 : EnhancedProcessor) mask context stages draft :
  (forall s d, enabled mask s = true ->
     run_stage self1 s d context = run_stage self2 s d context) ->
  run_stages self1 mask context stages draft = run_stages self2 mask context stages draft.
Proof.
  intros Hagree. revert draft. induction stages as [|s stages IH]; intros draft;
    [reflexivity|].
  cbn [run_stages]. unfold stage_step.
  destruct (enabled mask s) eqn:Hs.
  - rewrite (Hagree s draft Hs).
    destruct (run_stage self2 s draft context); [rewrite !bind_ok; apply IH | reflexivity].
  - rewrite !bind_ok. apply IH.
Qed.

(** X13. A disabled module is never consulted: two processors with the
    same configuration and model call that agree on the enabled modules
    answer every request alike, whatever their disabled modules would do. *)
Theorem disabled_modules_are_not_consulted (self1 self2 : EnhancedProcessor)
    (query context : str) (mask : Mask) (parameters : gmap str num) :
  mixtral_config self1 = mixtral_config self2 ->
  (forall payload, api_call self1 payload = api_call self2 payload) ->
  (forall s d, enabled mask s = true ->
     run_stage self1 s d context = run_stage self2 s d context) ->
  process_query self1 query context (active_modules_of mask) parameters
  = process_query self2 query context (active_modules_of mask) parameters.
Proof.
  intros Hcfg Hcall Hagree. rewrite !process_query_staged.
  assert (Hb : build_payload self1 query (active_modules_of mask) parameters
               = build_payload self2 query (active_modules_of mask) parameters).
  { unfold build_payload. rewrite Hcfg. reflexivity. }
  rewrite Hb.
  destruct (build_payload self2 query (active_modules_of mask) parameters)
    as [payload|err]; [|reflexivity].
  rewrite !bind_ok, Hcall.
  destruct (api_call self2 payload) as [draft|err]; [|reflexivity].
  rewrite !bind_ok. apply run_stages_agree, Hagree.
Qed.

(** X14. A request without a temperature, or with a temperature but
    without a max_length, fails with [KeyError] for that key, whatever the
    modules and whatever the model would answer. *)
Theorem missing_parameter_is_a_key_error (self : EnhancedProcessor)
    (query context : str) (active_modules : gmap str bool) (parameters : gmap str num) :
  (parameters !! ("temperature" : str) = None ->
   process_query self query context active_modules parameters
   = Raise (KeyError "temperature"))
  /\ (forall t, parameters !! ("temperature" : str) = Some t ->
      parameters !! ("max_length" : str) = None ->
      process_query self query context active_modules parameters
      = Raise (KeyError "max_length")).
Proof.
  unfold process_query, build_payload, getitem. split.
  - intros ->. reflexivity.
  - intros t -> ->. reflexivity.
Qed.

Lemma request_shaping_witness :
  exists payload,
    build_payload Examples.demo_processor "what is due"
      ReasoningExamples.only_validation Examples.demo_parameters = Ok payload
    /\ prompt payload = "what is due"
    /\ temperature payload = Float (7 # 10)
    /\ max_tokens payload = Int 1024
    /\ top_p payload
       = default (Float (9 # 10)) (Examples.demo_parameters !! ("top_p" : str))
    /\ repetition_penalty payload
       = default (Float (11 # 10))
           (Examples.demo_parameters !! ("repetition_penalty" : str))
    /\ ((exists k, ReasoningExamples.only_validation !! k = Some true) ->
        model payload = enhanced_mode (mixtral_config Examples.demo_processor))
    /\ ((forall k, ReasoningExamples.only_validation !! k <> Some true) ->
        model payload = base_model (mixtral_config Examples.demo_processor)).
Proof.
  apply (request_shaping Examples.demo_processor "what is due"
           ReasoningExamples.only_validation Examples.demo_parameters
           (Float (7 # 10)) (Int 1024)); reflexivity.
Defined.

Lemma missing_stage_fails_after_call_witness :
  (ReasoningExamples.only_validation !! ("cot" : str) = None ->
   process_query Examples.demo_processor "what is due" "notes"
     ReasoningExamples.only_validation Examples.demo_parameters
   = Raise (KeyError "cot"))
  /\ (ReasoningExamples.only_validation !! ("cot" : str) = Some false ->
      ReasoningExamples.only_validation !! ("tot" : str) = None ->
      process_query Examples.demo_processor "what is due" "notes"
        ReasoningExamples.only_validation Examples.demo_parameters
      = Raise (KeyError "tot"))
  /\ (ReasoningExamples.only_validation !! ("cot" : str) = Some false ->
      ReasoningExamples.only_validation !! ("tot" : str) = Some false ->
      ReasoningExamples.only_validation !! ("validation" : str) = None ->
      process_query Examples.demo_processor "what is due" "notes"
        ReasoningExamples.only_validation Examples.demo_parameters
      = Raise (KeyError "validation")).
Proof.
  apply (missing_stage_fails_after_call Examples.demo_processor "what is due" "notes"
           ReasoningExamples.only_validation Examples.demo_parameters
           Examples.demo_payload "draft").
  - vm_compute. reflexivity.
  - reflexivity.
Defined.

(** The request above, evaluated: the answer of the model is lost. *)
Example missing_stage_demo :
  process_query Examples.demo_processor "what is due" "notes"
    ReasoningExamples.only_validation Examples.demo_parameters
  = Raise (KeyError "cot").
Proof. vm_compute. reflexivity. Qed.

Lemma failures_propagate_witness :
  (api_call ReasoningExamples.failing_tot_processor Examples.demo_payload
   = Raise (ModelCallError "exploration timed out") ->
   process_query ReasoningExamples.failing_tot_processor "what is due" "notes"
     (active_modules_of Examples.demo_mask) Examples.demo_parameters
   = Raise (ModelCallError "exploration timed out"))
  /\ (forall draft before s later d,
        api_call ReasoningExamples.failing_tot_processor Examples.demo_payload = Ok draft ->
        stage_order = before ++ s :: later ->
        run_stages ReasoningExamples.failing_tot_processor Examples.demo_mask "notes"
          before draft = Ok d ->
        enabled Examples.demo_mask s = true ->
        run_stage ReasoningExamples.failing_tot_processor s d "notes"
        = Raise (ModelCallError "exploration timed out") ->
        process_query ReasoningExamples.failing_tot_processor "what is due" "notes"
          (active_modules_of Examples.demo_mask) Examples.demo_parameters
        = Raise (ModelCallError "exploration timed out")).
Proof.
  apply (failures_propagate ReasoningExamples.failing_tot_processor "what is due" "notes"
           Examples.demo_mask Examples.demo_parameters Examples.demo_payload).
  vm_compute. reflexivity.
Defined.

(** With the failing module enabled the request fails, and the validation
    stage behind it has not run. *)
Example failing_stage_demo :
  process_query ReasoningExamples.failing_tot_processor "what is due" "notes"
    (active_modules_of Examples.demo_mask) Examples.demo_parameters
  = Raise (ModelCallError "exploration timed out").
Proof. vm_compute. reflexivity. Qed.

Lemma disabled_modules_are_not_consulted_witness :
  process_query Examples.demo_processor "what is due" "notes"
    (active_modules_of Examples.demo_mask) Examples.demo_parameters
  = process_query ReasoningExamples.other_cot_processor "what is due" "notes"
      (active_modules_of Examples.demo_mask) Examples.demo_parameters.
Proof.
  apply (disabled_modules_are_not_consulted Examples.demo_processor
           ReasoningExamples.other_cot_processor "what is due" "notes"
           Examples.demo_mask Examples.demo_parameters).
  - reflexivity.
  - intros payload. reflexivity.
  - intros s d Hs. destruct s; [discriminate Hs | reflexivity | reflexivity].
Defined.

End ReasoningExtras.

(** ** Further properties of parameter validation *)

Module ParameterExtras.
Import ParameterValidator PyFacts.

(** [validate_params] on a record that has both entries. *)
Lemma validate_params_present (params : gmap str num) (t m : num) :
  params !! ("temperature" : str) = Some t ->
  params !! ("max_length" : str) = Some m ->
  validate_params params
  = match (if num_le (Int 0) t && num_le t (Int 1) then []
           else [py "Temperature out of range (0-1)"])
          ++ (if num_le m (Int 0) then [py "Invalid max length"] else []) with
    | [] => Ok tt
    | violations => Raise (InvalidParametersError (Text.join ", " violations))
    end.
Proof.
  intros Ht Hm. unfold validate_params, getitem.
  rewrite Ht, bind_ok, Hm, bind_ok.
  destruct (num_le (Int 0) t && num_le t (Int 1)), (num_le m (Int 0)); reflexivity.
Qed.

(** X15. A record with both entries is accepted exactly when
    [0 <= temperature <= 1] holds and [max_length <= 0] does not; otherwise
    it is rejected with [InvalidParametersError].  The length is never asked
    to be an integer or a number: a fraction above zero, an infinity or NaN
    passes the second test. *)
Theorem validate_params_accepts_exactly (params : gmap str num) (t m : num) :
  params !! ("temperature" : str) = Some t ->
  params !! ("max_length" : str) = Some m ->
  (validate_params params = Ok tt
   <-> temperature_in_range t /\ num_le m (Int 0) = false)
  /\ (validate_params params <> Ok tt ->
      raised_kind (validate_params params) = Some KInvalidParameters).
Proof.
  intros Ht Hm. rewrite (validate_params_present params t m Ht Hm).
  unfold temperature_in_range. rewrite <- andb_true_iff.
  destruct (num_le (Int 0) t && num_le t (Int 1)), (num_le m (Int 0)); cbn [app].
  - split; [split; [discriminate | intros [_ E]; discriminate] | reflexivity].
  - split; [split; [intros _; split; reflexivity | reflexivity]|].
    intros Hne. destruct Hne. reflexivity.
  - split; [split; [discriminate | intros [E _]; discriminate] | reflexivity].
  - split; [split; [discriminate | intros [E _]; discriminate] | reflexivity].
Qed.

Lemma validate_params_accepts_exactly_witness :
  (validate_params ValidatorExamples.nan_length = Ok tt
   <-> temperature_in_range (Float (1 # 2)) /\ num_le NaN (Int 0) = false)
  /\ (validate_params ValidatorExamples.nan_length <> Ok tt ->
      raised_kind (validate_params ValidatorExamples.nan_length)
      = Some KInvalidParameters).
Proof.
  apply (validate_params_accepts_exactly ValidatorExamples.nan_length (Float (1 # 2)) NaN);
    reflexivity.
Defined.

(** The record with a NaN length, evaluated: it is accepted. *)
Example nan_length_is_accepted : validate_params ValidatorExamples.nan_length = Ok tt.
Proof. vm_compute. reflexivity. Qed.

(** X16. A record without a temperature fails with [KeyError]; so does a
    record without a max_length, and then a temperature out of range that
    the first test has already found is not reported. *)
Theorem missing_entry_is_a_key_error (params : gmap str num) :
  (params !! ("temperature" : str) = None ->
   validate_params params = Raise (KeyError "temperature"))
  /\ (forall t, params !! ("temperature" : str) = Some t ->
      params !! ("max_length" : str) = None ->
      validate_params params = Raise (KeyError "max_length")).
Proof.
  unfold validate_params, getitem. split.
  - intros ->. reflexivity.
  - intros t -> ->. reflexivity.
Qed.

End ParameterExtras.

(** ** Further properties of file handling *)

Module FileExtras.
Import FileHandling PyFacts TextFacts ValidationResults OutputResults.

Section AnyOS.

Context `{OS World}.

Lemma validate_directory_accepts (w : World) (path : str) (require_write : bool) :
  validate_directory w path require_write = Ok true
  <-> path_exists w path = true
      /\ path_isdir w path = true
      /\ (require_write = true -> access_W_OK w path = true)
      /\ path_islink w path = false.
Proof.
  rewrite validate_directory_cases. split.
  - intros E.
    destruct (path_exists w path); cbn [negb] in E; [|discriminate].
    destruct (path_isdir w path); cbn [negb] in E; [|discriminate].
    destruct (require_write && negb (access_W_OK w path)) eqn:Hrw; [discriminate|].
    destruct (path_islink w path); [discriminate|].
    repeat split. intros ->. cbn [andb] in Hrw. apply negb_false_iff in Hrw. exact Hrw.
  - intros [-> [-> [Hw ->]]]. cbn [negb].
    destruct require_write; [rewrite Hw by reflexivity|]; reflexivity.
Qed.

(** X17. A directory is accepted exactly when it exists, is a directory,
    is writable if write access is required, and is no symbolic link; so
    what is accepted with the write requirement is accepted without it. *)
Theorem validate_directory_accepts_exactly (w : World) (path : str)
    (require_write : bool) :
  (validate_directory w path require_write = Ok true
   <-> path_exists w path = true
       /\ path_isdir w path = true
       /\ (require_write = true -> access_W_OK w path = true)
       /\ path_islink w path = false)
  /\ (validate_directory w path true = Ok true ->
      validate_directory w path false = Ok true).
Proof.
  split; [apply validate_directory_accepts|].
  rewrite !validate_directory_accepts.
  intros [He [Hd [_ Hl]]]. repeat split; try assumption. discriminate.
Qed.

(** X18. Whatever the path, [validate_directory] either returns [True]
    or raises [ValidationError] with the message of its cause, the cause
    being the exception of the first check that failed; no other exception
    and no [False] ever comes out of it. *)
Theorem validate_directory_fails_only_with_validation_error (w : World) (path : str)
    (require_write : bool) :
  validate_directory w path require_write = Ok true
  \/ exists cause,
       validate_directory w path require_write
       = Raise (ValidationError (str_of_exn cause) cause)
       /\ (cause = FileNotFoundError ("Path does not exist: " ++ path)
           \/ cause = NotADirectoryError ("Not a directory: " ++ path)
           \/ cause = PermissionError ("Write access denied: " ++ path)
           \/ cause = SecurityError symlink_message).
Proof.
  rewrite validate_directory_cases.
  destruct (path_exists w path); cbn [negb];
    [|right; eexists (FileNotFoundError _); split; [reflexivity | auto]].
  destruct (path_isdir w path); cbn [negb];
    [|right; eexists (NotADirectoryError _); split; [reflexivity | auto]].
  destruct (require_write && negb (access_W_OK w path));
    [right; eexists (PermissionError _); split; [reflexivity | auto]|].
  destruct (path_islink w path);
    [right; eexists (SecurityError _); split; [reflexivity | auto 6] | left; reflexivity].
Qed.

(** When [write_markdown] returns. *)
Lemma write_markdown_returns (w w' : World) (content directory filename returned : str) :
  write_markdown w content directory filename = Ok (returned, w')
  <-> validate_directory w directory true = Ok true
      /\ open_write w (Posixpath.join directory (safe_filename_of filename ++ ".md"))
           content = Ok w'
      /\ returned
         = Posixpath.normpath
             (Posixpath.join directory (safe_filename_of filename ++ ".md")).
Proof.
  unfold write_markdown. fold (safe_filename_of filename).
  destruct (validate_directory w directory true) as [b|e] eqn:Hv.
  - apply validate_directory_true in Hv as ->. rewrite bind_ok.
    destruct (open_write w _ content) as [w1|e]; [rewrite bind_ok | rewrite bind_raise].
    + split.
      * intros E. injection E as <- <-. auto.
      * intros [_ [E ->]]. injection E as ->. reflexivity.
    + split; [discriminate | intros [_ [E _]]; discriminate].
  - rewrite bind_raise. split; [discriminate | intros [E _]; discriminate].
Qed.

Lemma filter_all {A : Type} (f : A -> bool) (l : list A) :
  Forall (fun x => f x = true) l -> List.filter f l = l.
Proof.
  induction 1 as [|x l Hx _ IH]; [reflexivity|].
  simpl. rewrite Hx, IH. reflexivity.
Qed.

Lemma filter_none {A : Type} (f : A -> bool) (l : list A) :
  Forall (fun x => f x = false) l -> List.filter f l = [].
Proof.
  induction 1 as [|x l Hx _ IH]; [reflexivity|].
  simpl. rewrite Hx, IH. reflexivity.
Qed.

Lemma safe_filename_idempotent (filename : str) :
  safe_filename_of (safe_filename_of filename) = safe_filename_of filename.
Proof.
  rewrite (safe_filename_filter (safe_filename_of filename)).
  rewrite filter_all by apply safe_filename_allowed.
  rewrite safe_filename_filter. rewrite take_take. reflexivity.
Qed.

(** X19. Sanitising is idempotent, so asking for the sanitised name is
    asking for the original one: both calls do the same, and two requested
    names with one sanitised form are written to one file. *)
Theorem write_markdown_under_sanitised_name (w : World)
    (content directory filename : str) :
  safe_filename_of (safe_filename_of filename) = safe_filename_of filename
  /\ write_markdown w content directory (safe_filename_of filename)
     = write_markdown w content directory filename
  /\ (forall other, safe_filename_of other = safe_filename_of filename ->
        write_markdown w content directory other
        = write_markdown w content directory filename).
Proof.
  assert (G : forall f1 f2, safe_filename_of f1 = safe_filename_of f2 ->
              write_markdown w content directory f1 = write_markdown w content directory f2).
  { intros f1 f2 E. unfold write_markdown.
    fold (safe_filename_of f1). fold (safe_filename_of f2). rewrite E. reflexivity. }
  split; [apply safe_filename_idempotent | split].
  - apply G, safe_filename_idempotent.
  - intros other E. apply G, E.
Qed.

(** X20. A requested name without a single allowed character, the empty
    name included, is sanitised to nothing: if the call returns, the file
    written is ".md" in the directory. *)
Theorem unusable_name_writes_dot_md (w w' : World)
    (content directory filename returned : str) :
  Forall (fun c => allowed c = false) filename ->
  write_markdown w content directory filename = Ok (returned, w') ->
  safe_filename_of filename = []
  /\ open_write w (Posixpath.join directory ".md") content = Ok w'
  /\ Posixpath.basename returned = ".md".
Proof.
  intros Hnone [_ [Hopen ->]]%write_markdown_returns.
  assert (E : safe_filename_of filename = []).
  { rewrite safe_filename_filter, filter_none by exact Hnone. reflexivity. }
  rewrite E in *. split; [reflexivity | split; [exact Hopen|]].
  destruct (split_on_join directory ".md" eq_refl) as [comps Hc].
  apply (basename_normpath _ _ comps); try discriminate; [reflexivity | exact Hc].
Qed.

(** X21. The call returns only for a directory that exists, is a
    directory, is writable and is no symbolic link, and only if the file
    could be opened there. *)
Theorem write_markdown_needs_valid_directory (w w' : World)
    (content directory filename returned : str) :
  write_markdown w content directory filename = Ok (returned, w') ->
  path_exists w directory = true
  /\ path_isdir w directory = true
  /\ access_W_OK w directory = true
  /\ path_islink w directory = false
  /\ open_write w (Posixpath.join directory (safe_filename_of filename ++ ".md"))
       content = Ok w'.
Proof.
  intros [Hv [Hopen _]]%write_markdown_returns.
  apply validate_directory_accepts in Hv as [He [Hd [Hw Hl]]].
  repeat split; try assumption. apply Hw. reflexivity.
Qed.


End AnyOS.

Lemma unusable_name_writes_dot_md_witness :
  safe_filename_of "?!" = []
  /\ open_write Examples.demo_fs (Posixpath.join "/notes" ".md") "# Q3"
     = Ok FileExamples.after_unusable_name
  /\ Posixpath.basename (py "/notes/.md") = ".md".
Proof.
  apply (unusable_name_writes_dot_md (H := table_os) Examples.demo_fs
           FileExamples.after_unusable_name "# Q3" "/notes" "?!" "/notes/.md").
  - repeat constructor.
  - reflexivity.
Defined.

Lemma write_markdown_needs_valid_directory_witness :
  path_exists Examples.demo_fs "/notes" = true
  /\ path_isdir Examples.demo_fs "/notes" = true
  /\ access_W_OK Examples.demo_fs "/notes" = true
  /\ path_islink Examples.demo_fs "/notes" = false
  /\ open_write Examples.demo_fs
       (Posixpath.join "/notes" (safe_filename_of "../Q3 plan: draft/v2.md" ++ ".md"))
       "# Q3"
     = Ok FileExamples.after_report.
Proof.
  apply (write_markdown_needs_valid_directory (H := table_os) Examples.demo_fs
           FileExamples.after_report "# Q3" "/notes" "../Q3 plan: draft/v2.md"
           "/notes/Q3plandraftv2md.md").
  reflexivity.
Defined.


End FileExtras.

(** ** The file watcher *)

Module WatcherExtras.
Import FileHandling Watcher.

Section AnyOS.

Context `{OS World} `{ReadAccess World}.

Lemma on_modified_passes `{Processor P} (processor : P) (we : World * FileSystemEvent) :
  on_modified (fst we) processor (snd we)
  = if passes we then process_file processor (src_path (snd we)) else processor.
Proof.
  unfold on_modified, passes, validate_path.
  destruct (is_directory (snd we)), (path_islink (fst we) (src_path (snd we))),
           (path_exists (fst we) (src_path (snd we))),
           (access_R_OK (fst we) (src_path (snd we))); reflexivity.
Qed.

Lemma deliver_filter `{Processor P} (processor : P)
    (events : list (World * FileSystemEvent)) :
  deliver processor events
  = fold_left process_file
      (map (fun we => src_path (snd we)) (List.filter passes events)) processor.
Proof.
  unfold deliver. revert processor.
  induction events as [|we events IH]; intros processor; [reflexivity|].
  cbn [fold_left List.filter]. rewrite IH, on_modified_passes.
  destruct (passes we); reflexivity.
Qed.

Lemma record_all (paths log : list str) :
  fold_left (process_file (P := list str)) paths log = log ++ paths.
Proof.
  revert log. induction paths as [|p paths IH]; intros log.
  - rewrite app_nil_r. reflexivity.
  - cbn [fold_left]. rewrite IH. cbn. rewrite <- app_assoc. reflexivity.
Qed.

(** X23. Of the events delivered to the handler, the processor is given
    the paths of those that pass, in their order, and nothing else: every
    path it is given comes from an event that is not a directory event and
    whose path, when the event was handled, was no symbolic link, existed
    and was readable. *)
Theorem watcher_hands_on_checked_files (events : list (World * FileSystemEvent)) :
  (forall (P : Type) (Proc : Processor P) (processor : P),
     deliver processor events
     = fold_left process_file
         (map (fun we => src_path (snd we)) (List.filter passes events)) processor)
  /\ (forall path,
        path ∈ deliver (P := list str) [] events ->
        exists w event,
          (w, event) ∈ events
          /\ src_path event = path
          /\ is_directory event = false
          /\ path_islink w path = false
          /\ path_exists w path = true
          /\ access_R_OK w path = true).
Proof.
  split.
  - intros P Proc processor. apply deliver_filter.
  - intros path. rewrite deliver_filter, record_all. cbn [app].
    intros Hin. apply list_elem_of_fmap in Hin as [[w event] [-> Hin]].
    apply list_elem_of_In, filter_In in Hin as [Hin Hpass].
    exists w, event. split; [apply list_elem_of_In, Hin|].
    unfold passes in Hpass. cbn [fst snd] in *.
    apply andb_true_iff in Hpass as [Hpass Hr].
    apply andb_true_iff in Hpass as [Hpass He].
    apply andb_true_iff in Hpass as [Hd Hl].
    apply negb_true_iff in Hd, Hl. auto.
Qed.

End AnyOS.

(** A burst of events on the example file system: the note is passed
    on, the directory event, the two links and the missing file are not. *)
Example watcher_demo :
  deliver (P := list str) []
    (map (fun ev => (Examples.demo_fs, ev))
       [ {| is_directory := false; src_path := "/todo.md" |};
         {| is_directory := true; src_path := "/notes" |};
         {| is_directory := false; src_path := "/link-to-file" |};
         {| is_directory := false; src_path := "/vault" |};
         {| is_directory := false; src_path := "/gone.md" |} ])
  = [py "/todo.md"].
Proof. reflexivity. Qed.

End WatcherExtras.

(** ** The module toggles *)

Module ControlsExtras.
Import ReasoningControls.

Lemma get_spread_set_same {V : Type} (o : object V) (key : str) (v : V) :
  get (spread_set o key v) key = Some v.
Proof.
  induction o as [|[k x] o IH]; simpl.
  - rewrite bool_decide_eq_true_2 by reflexivity. reflexivity.
  - destruct (bool_decide (k = key)) eqn:E; simpl; rewrite E; [reflexivity | exact IH].
Qed.

Lemma get_spread_set_other {V : Type} (o : object V) (key other : str) (v : V) :
  other <> key -> get (spread_set o key v) other = get o other.
Proof.
  intros Hne. induction o as [|[k x] o IH]; simpl.
  - rewrite bool_decide_eq_false_2 by congruence. reflexivity.
  - destruct (bool_decide (k = key)) eqn:E; simpl.
    + apply bool_decide_eq_true in E. subst k.
      rewrite !bool_decide_eq_false_2 by congruence. reflexivity.
    + rewrite IH. reflexivity.
Qed.

Lemma keys_spread_set {V : Type} (o : object V) (key : str) (v : V) :
  key ∈ keys o -> keys (spread_set o key v) = keys o.
Proof.
  unfold keys. induction o as [|[k x] o IH]; simpl; intros Hin; [inversion Hin|].
  destruct (bool_decide (k = key)) eqn:E; simpl; [reflexivity|].
  apply bool_decide_eq_false in E.
  apply elem_of_cons in Hin as [Hin | Hin]; [congruence|].
  rewrite IH by exact Hin. reflexivity.
Qed.

Lemma get_key {V : Type} (o : object V) (key : str) :
  key ∈ keys o <-> exists v, get o key = Some v.
Proof.
  unfold keys. induction o as [|[k x] o IH]; simpl.
  - split; [intros Hin; inversion Hin | intros [v Hv]; discriminate].
  - destruct (bool_decide (k = key)) eqn:E.
    + apply bool_decide_eq_true in E. subst. split; [eauto | intros _; left].
    + apply bool_decide_eq_false in E. rewrite elem_of_cons, IH. split.
      * intros [Hk | Hv]; [congruence | exact Hv].
      * intros Hv. right. exact Hv.
Qed.

Lemma clicked_cons (module c : str) (clicks : list str) :
  clicked module (c :: clicks)
  = (if bool_decide (c = module) then 1 else 0) + clicked module clicks.
Proof.
  unfold clicked. simpl. destruct (bool_decide (c = module)); reflexivity.
Qed.

(** The state after a run of clicks on existing keys. *)
Lemma after_clicks_state (clicks : list str) (modules : object bool) :
  Forall (fun c => c ∈ keys modules) clicks ->
  keys (after_clicks clicks modules) = keys modules
  /\ forall m, get (after_clicks clicks modules) m
               = (fun b => xorb b (Nat.odd (clicked m clicks))) <$> get modules m.
Proof.
  revert modules. induction clicks as [|c clicks IH]; intros modules Hall.
  - split; [reflexivity|]. intros m. cbn.
    destruct (get modules m) as [b|]; [cbn; rewrite xorb_false_r|]; reflexivity.
  - apply Forall_cons in Hall as [Hc Hall].
    assert (Hk : keys (handleModuleToggle c modules) = keys modules)
      by (apply keys_spread_set, Hc).
    destruct (IH (handleModuleToggle c modules)) as [IHk IHg].
    { rewrite Hk. exact Hall. }
    change (after_clicks (c :: clicks) modules)
      with (after_clicks clicks (handleModuleToggle c modules)).
    split; [rewrite IHk; exact Hk|].
    intros m. rewrite IHg, clicked_cons. unfold handleModuleToggle.
    destruct (decide (c = m)) as [->|Hne].
    + rewrite get_spread_set_same, bool_decide_eq_true_2 by reflexivity.
      apply get_key in Hc as [b Hb]. rewrite Hb. cbn [js_not fmap option_fmap option_map].
      change (1 + clicked m clicks) with (S (clicked m clicks)).
      rewrite Nat.odd_succ, <- Nat.negb_odd.
      destruct b, (Nat.odd (clicked m clicks)); reflexivity.
    + rewrite get_spread_set_other by congruence.
      rewrite bool_decide_eq_false_2 by exact Hne. reflexivity.
Qed.

(** X24. Clicks on existing modules keep the keys and their order, and
    leave each module at its first value if it was clicked an even number of
    times and at the opposite value otherwise; so clicking a module twice
    changes nothing, and a click touches no other module. *)
Theorem toggles_flip_by_parity (clicks : list str) (modules : object bool) :
  Forall (fun c => c ∈ keys modules) clicks ->
  keys (after_clicks clicks modules) = keys modules
  /\ forall m b, get modules m = Some b ->
       get (after_clicks clicks modules) m = Some (xorb b (Nat.odd (clicked m clicks))).
Proof.
  intros Hall. destruct (after_clicks_state clicks modules Hall) as [Hk Hg].
  split; [exact Hk|]. intros m b Hb. rewrite Hg, Hb. reflexivity.
Qed.

Lemma toggles_flip_by_parity_witness :
  keys (after_clicks ["tot" : str; "validation" : str; "tot" : str; "cot" : str]
          initial_modules)
  = keys initial_modules
  /\ forall m b, get initial_modules m = Some b ->
       get (after_clicks ["tot" : str; "validation" : str; "tot" : str; "cot" : str]
              initial_modules) m
       = Some (xorb b (Nat.odd (clicked m
                 ["tot" : str; "validation" : str; "tot" : str; "cot" : str]))).
Proof.
  apply (toggles_flip_by_parity
           ["tot" : str; "validation" : str; "tot" : str; "cot" : str] initial_modules).
  repeat constructor; set_solver.
Defined.

(** X25. After any clicks on the three buttons, the request lists, in the
    order cot, tot, validation, exactly the modules whose first value
    (validation on, the others off) has been flipped an odd number of times
    or kept an even number of times. *)
Theorem request_lists_enabled_modules (clicks : list str) :
  Forall (fun c => c ∈ keys initial_modules) clicks ->
  request_modules (after_clicks clicks initial_modules)
  = List.filter
      (fun m => xorb (truthy (get initial_modules m)) (Nat.odd (clicked m clicks)))
      ["cot" : str; "tot" : str; "validation" : str].
Proof.
  intros Hall. destruct (after_clicks_state clicks initial_modules Hall) as [Hk Hg].
  unfold request_modules. rewrite Hk.
  change (keys initial_modules) with ["cot" : str; "tot" : str; "validation" : str].
  apply filter_ext_in. intros m Hm. rewrite Hg.
  destruct Hm as [<- | [<- | [<- | []]]]; reflexivity.
Qed.

Lemma request_lists_enabled_modules_witness :
  request_modules
    (after_clicks ["tot" : str; "validation" : str; "tot" : str; "cot" : str]
       initial_modules)
  = List.filter
      (fun m => xorb (truthy (get initial_modules m))
                  (Nat.odd (clicked m
                     ["tot" : str; "validation" : str; "tot" : str; "cot" : str])))
      ["cot" : str; "tot" : str; "validation" : str].
Proof.
  apply (request_lists_enabled_modules
           ["tot" : str; "validation" : str; "tot" : str; "cot" : str]).
  repeat constructor; set_solver.
Defined.

(** The same clicks, evaluated: only chain-of-thought is left on. *)
Example request_after_clicks :
  request_modules
    (after_clicks ["tot" : str; "validation" : str; "tot" : str; "cot" : str]
       initial_modules)
  = [py "cot"].
Proof. reflexivity. Qed.

End ControlsExtras.

(** ** Further properties of the instruction input *)

Module UpdaterExtras.
Import InstructionUpdater TextFacts UpdaterResults.

(** Events are lines up to the first end of input or interrupt, if any. *)
Lemma events_shape (events : list event) :
  (exists lines, events = map Line lines)
  \/ (exists lines terminator rest,
        events = map Line lines ++ terminator :: rest
        /\ (terminator = EndOfInput \/ terminator = Sigint)).
Proof.
  induction events as [|ev events IH].
  - left. exists []. reflexivity.
  - destruct ev as [l| |].
    + destruct IH as [[lines ->] | [lines [t [rest [-> Ht]]]]].
      * left. exists (l :: lines). reflexivity.
      * right. exists (l :: lines), t, rest. split; [reflexivity | exact Ht].
    + right. exists [], EndOfInput, events. split; [reflexivity | left; reflexivity].
    + right. exists [], Sigint, events. split; [reflexivity | right; reflexivity].
Qed.

Lemma lines_pending (lines : list str) : updateInstructions (map Line lines) = Pending.
Proof.
  unfold updateInstructions, run. rewrite run_lines by reflexivity. reflexivity.
Qed.

(** X26. The promise stays pending exactly as long as nothing but lines
    has arrived: no line resolves it, and the first end of input or
    interrupt does. *)
Theorem pending_until_closed (events : list event) :
  updateInstructions events = Pending
  <-> forall ev, ev ∈ events -> exists line, ev = Line line.
Proof.
  split.
  - intros Hp ev Hev.
    destruct (events_shape events) as [[lines ->] | [lines [t [rest [-> Ht]]]]].
    + apply list_elem_of_fmap in Hev as [l [-> _]]. exists l. reflexivity.
    + rewrite (run_until t lines rest Ht) in Hp. discriminate.
  - intros Hall.
    destruct (events_shape events) as [[lines ->] | [lines [t [rest [-> Ht]]]]].
    + apply lines_pending.
    + destruct (Hall t) as [l Hl].
      * apply elem_of_app. right. left.
      * destruct Ht as [-> | ->]; discriminate.
Qed.

(** What trimming leaves at the two ends. *)
Lemma trimStart_head (s : str) (c : ascii) (rest : str) :
  trimStart s = c :: rest -> js_isspace c = false.
Proof.
  induction s as [|a s IH]; simpl; [discriminate|].
  destruct (js_isspace a) eqn:Ha; [exact IH|].
  intros E. injection E as <- _. exact Ha.
Qed.

Lemma trimStart_fixed (s : str) :
  (forall c rest, s = c :: rest -> js_isspace c = false) -> trimStart s = s.
Proof.
  destruct s as [|a s]; [reflexivity|]. intros Hh. simpl.
  rewrite (Hh a s eq_refl). reflexivity.
Qed.

Lemma trimStart_suffix (s : str) : exists ws, s = ws ++ trimStart s.
Proof.
  induction s as [|a s [ws IH]]; [exists []; reflexivity|].
  simpl. destruct (js_isspace a).
  - exists (a :: ws). simpl. rewrite <- IH. reflexivity.
  - exists []. reflexivity.
Qed.

Lemma trimEnd_last (s front : str) (c : ascii) :
  trimEnd s = front ++ [c] -> js_isspace c = false.
Proof.
  unfold trimEnd. intros E. apply (f_equal (@rev ascii)) in E.
  rewrite rev_involutive, rev_app_distr in E. simpl in E.
  apply trimStart_head in E. exact E.
Qed.

Lemma trimEnd_fixed (s : str) :
  (forall c front, s = front ++ [c] -> js_isspace c = false) -> trimEnd s = s.
Proof.
  intros Hl. unfold trimEnd. rewrite trimStart_fixed; [apply rev_involutive|].
  intros c rest E. apply (Hl c (rev rest)).
  rewrite <- (rev_involutive s), E. reflexivity.
Qed.

Lemma trimEnd_prefix (s : str) : exists ws, s = trimEnd s ++ ws.
Proof.
  unfold trimEnd. destruct (trimStart_suffix (rev s)) as [ws Hws].
  exists (rev ws). rewrite <- rev_app_distr, <- Hws, rev_involutive. reflexivity.
Qed.

Lemma trim_ends (s : str) :
  (forall c rest, trim s = c :: rest -> js_isspace c = false)
  /\ (forall c front, trim s = front ++ [c] -> js_isspace c = false).
Proof.
  unfold trim. split.
  - intros c rest E.
    destruct (trimEnd_prefix (trimStart s)) as [ws Hws].
    rewrite E in Hws. apply (trimStart_head s c (rest ++ ws)). exact Hws.
  - intros c front E. apply (trimEnd_last _ _ _ E).
Qed.

Lemma trim_fixed (s : str) :
  (forall c rest, s = c :: rest -> js_isspace c = false) ->
  (forall c front, s = front ++ [c] -> js_isspace c = false) ->
  trim s = s.
Proof.
  intros Hh Hl. unfold trim. rewrite (trimStart_fixed s Hh). apply trimEnd_fixed, Hl.
Qed.

(** What a resolved promise holds. *)
Lemma resolved_value (events : list event) (value : str) :
  updateInstructions events = Resolved value ->
  exists lines, value = trim (Text.join line_feed lines).
Proof.
  destruct (events_shape events) as [[lines ->] | [lines [t [rest [-> Ht]]]]].
  - rewrite lines_pending. discriminate.
  - rewrite (run_until t lines rest Ht). intros E. injection E as <-.
    exists lines. reflexivity.
Qed.

(** X27. Whatever the events, a value the promise resolves with is
    trimmed: it neither starts nor ends with whitespace, and trimming it
    again changes nothing. *)
Theorem resolved_value_is_trimmed (events : list event) (value : str) :
  updateInstructions events = Resolved value ->
  (forall c rest, value = c :: rest -> js_isspace c = false)
  /\ (forall c front, value = front ++ [c] -> js_isspace c = false)
  /\ trim value = value.
Proof.
  intros [lines ->]%resolved_value.
  destruct (trim_ends (Text.join line_feed lines)) as [Hh Hl].
  split; [exact Hh | split; [exact Hl|]].
  apply trim_fixed; assumption.
Qed.

Lemma resolved_value_is_trimmed_witness :
  (forall c rest, py "be brief" = c :: rest -> js_isspace c = false)
  /\ (forall c front, py "be brief" = front ++ [c] -> js_isspace c = false)
  /\ trim "be brief" = "be brief".
Proof.
  apply (resolved_value_is_trimmed [Line "  be brief "; EndOfInput] "be brief").
  reflexivity.
Defined.

(** X28. Lines that, joined by line feeds, begin and end with a character
    that is not whitespace come back as they were entered: the result is the
    joined text, inner line breaks and blank lines included. *)
Theorem clean_input_is_returned_verbatim (lines : list str) (terminator : event)
    (rest : list event) (first last : ascii) (body front : str) :
  terminator = EndOfInput \/ terminator = Sigint ->
  Text.join line_feed lines = first :: body ->
  Text.join line_feed lines = front ++ [last] ->
  js_isspace first = false ->
  js_isspace last = false ->
  updateInstructions (map Line lines ++ terminator :: rest)
  = Resolved (Text.join line_feed lines).
Proof.
  intros Ht Hfirst Hlast Hf Hl. rewrite (run_until terminator lines rest Ht).
  f_equal. apply trim_fixed.
  - intros c r E. rewrite Hfirst in E. injection E as <- _. exact Hf.
  - intros c fr E. rewrite Hlast in E. apply app_inj_tail in E as [_ <-]. exact Hl.
Qed.

Lemma clean_input_is_returned_verbatim_witness :
  updateInstructions (map Line [py "be brief"; []; py "  cite sources"]
                        ++ EndOfInput :: [])
  = Resolved (Text.join line_feed [py "be brief"; []; py "  cite sources"]).
Proof.
  apply (clean_input_is_returned_verbatim [py "be brief"; []; py "  cite sources"]
           EndOfInput [] "b" "s"
           (skipn 1 (Text.join line_feed [py "be brief"; []; py "  cite sources"]))
           (removelast (Text.join line_feed [py "be brief"; []; py "  cite sources"])));
    solve [reflexivity | left; reflexivity].
Defined.

Lemma join_all_space (lines : list str) :
  Forall (fun line => forallb js_isspace line = true) lines ->
  forallb js_isspace (Text.join line_feed lines) = true.
Proof.
  induction 1 as [|l lines Hl _ IH]; [reflexivity|].
  destruct lines as [|l' lines]; [exact Hl|].
  rewrite join_cons by discriminate.
  rewrite !forallb_app, Hl, IH. reflexivity.
Qed.

(** X29. Input that holds nothing but whitespace, no line at all
    included, resolves with the empty text. *)
Theorem blank_input_resolves_empty (lines : list str) (terminator : event)
    (rest : list event) :
  terminator = EndOfInput \/ terminator = Sigint ->
  Forall (fun line => forallb js_isspace line = true) lines ->
  updateInstructions (map Line lines ++ terminator :: rest) = Resolved [].
Proof.
  intros Ht Hblank. rewrite (run_until terminator lines rest Ht). f_equal.
  unfold trim. rewrite (trimStart_all_space _ (join_all_space lines Hblank)).
  reflexivity.
Qed.

Lemma blank_input_resolves_empty_witness :
  updateInstructions (map Line [py "   "; []] ++ Sigint :: [Line "late"])
  = Resolved [].
Proof.
  apply (blank_input_resolves_empty [py "   "; []] Sigint [Line "late"]).
  - right. reflexivity.
  - repeat constructor.
Defined.

End UpdaterExtras.
